(** * iMars3D: completeness detection and CT file-set assembly

    A shallow embedding of [python/imars3d/CT_from_TIFF_metadata.py]:
    [autoreduce], [CT._getCTfiles], [CT._find_OB_DF_files], [getIPTSdir]
    and [readTIFMetadata].

    Conventions of the embedding.
    - Python [int] is [Z] (unbounded).  Python [float] (angles, modification
      times, pixel values) is modelled by the rational it denotes, [Q], with
      exact arithmetic; rounding, infinities and NaN are outside the model.
      A computed value can differ from the double of the code in its last
      digits, and a comparison can come out differently where its two
      sides are within rounding error of each other; what is proved about
      the tolerance test of the angles keeps a margin off that bound.
    - [str] is [string]; a [dict] with string keys is an association list
      read by key.
    - An exception is a value of [exn]; a call that may raise returns a
      [result].  Code that reads or writes the file system runs in the
      state-and-error monad [M] over [World].  An exception discards the
      state (the caller of the embedded functions never resumes).
    - Library calls ([os], [numpy], [tifffile]) are modelled from their
      documented behaviour; the builtins [int] and [float] and the [%s]
      formatting of floats are an interface, [Builtins].
    - [CTProcessor], [ct.preprocess()] and [ct.recon()] are the
      reconstruction stage: [autoreduce] is embedded up to the point where
      it has built what it passes on to them. *)

From Stdlib Require Import ZArith QArith Qabs List String Ascii Bool Lia Lqa.
From Stdlib Require Import Sorting.Sorted Permutation.
From Stdlib Require Import Numbers.DecimalString.
Import ListNotations.

Open Scope string_scope.
Open Scope Z_scope.

(** ** Exceptions and results *)

Inductive exn : Type :=
| RuntimeError (msg : string)
| ValueError (msg : string)
| KeyError (key : string)
| UnboundLocalError (var : string)
| ZeroDivisionError
| AssertionError (msg : string)
| AttributeError (name : string)
| OSError (path : string).

Inductive result (A : Type) : Type :=
| Ok (a : A)
| Raise (e : exn).

Arguments Ok {A} a.
Arguments Raise {A} e.

Definition is_ok {A} (r : result A) : bool :=
  match r with Ok _ => true | Raise _ => false end.

Definition rbind {A B} (r : result A) (k : A -> result B) : result B :=
  match r with
  | Ok a => k a
  | Raise e => Raise e
  end.

(** ** Strings: [str.split], [str.startswith], [os.path] *)

Module Str.

(** [s.split(sep)] for a one-character separator: empty fields are kept,
    and the empty string splits into one empty field. *)
Fixpoint split (sep : ascii) (s : string) : list string :=
  match s with
  | EmptyString => [EmptyString]
  | String c s' =>
      if Ascii.eqb c sep then EmptyString :: split sep s'
      else match split sep s' with
           | tok :: rest => String c tok :: rest
           | [] => [String c EmptyString]
           end
  end.

(** [sep.join(tokens)] *)
Fixpoint join (sep : string) (tokens : list string) : string :=
  match tokens with
  | [] => EmptyString
  | [t] => t
  | t :: rest => t ++ sep ++ join sep rest
  end.

(** [token.startswith(pre)] *)
Definition startswith (token pre : string) : bool := String.prefix pre token.

Fixpoint endswith_char (s : string) (c : ascii) : bool :=
  match s with
  | EmptyString => false
  | String a EmptyString => Ascii.eqb a c
  | String _ s' => endswith_char s' c
  end.

(** [s.rstrip(c)] for one character. *)
Fixpoint rstrip (c : ascii) (s : string) : string :=
  match s with
  | EmptyString => EmptyString
  | String a s' =>
      match rstrip c s' with
      | EmptyString => if Ascii.eqb a c then EmptyString else String a EmptyString
      | r => String a r
      end
  end.

(** [posixpath.join(a, b)] *)
Definition path_join (a b : string) : string :=
  if startswith b "/" then b
  else if (String.eqb a "" || endswith_char a "/")%bool then a ++ b
  else a ++ "/" ++ b.

(** [posixpath.dirname(p)]: everything up to the last slash, trailing
    slashes removed unless the head is made of slashes only. *)
Definition dirname (p : string) : string :=
  let tokens := split "/" p in
  let head := concat "" (map (fun t => t ++ "/") (removelast tokens)) in
  match rstrip "/" head with
  | EmptyString => head
  | stripped => stripped
  end.

(** [str(n)] for an integer. *)
Definition of_Z (n : Z) : string := NilZero.string_of_int (Z.to_int n).

End Str.

(** ** [getIPTSdir] (lines 209-216) *)

Fixpoint getIPTSdir_loop (p : string) (tokens : list string) : string :=
  match tokens with
  | [] => p
  | token :: rest =>
      let p := p ++ token ++ "/" in
      if Str.startswith token "IPTS" then p else getIPTSdir_loop p rest
  end.

Definition getIPTSdir (f1 : string) : string :=
  let tokens := Str.split "/" f1 in
  getIPTSdir_loop "" tokens.

(** ** [numpy] on one-dimensional float data *)

Module np.

Local Open Scope Q_scope.

(** An array is its shape and its elements in row-major order; [Scalar]
    is a Python float that has not met an array yet ([data = 0.]). *)
Inductive ndarray : Type :=
| Scalar (x : Q)
| Array (shape : list nat) (px : list Q).

(** The number of elements of an array of a shape. *)
Definition size (shape : list nat) : nat := fold_right Nat.mul 1%nat shape.

(** [np.average(l)]: the sum over the length.  The sum is taken left to
    right here; numpy adds long inputs in blocks, which in exact arithmetic
    is the same number. *)
Definition average (l : list Q) : Q :=
  fold_left Qplus l 0 / inject_Z (Z.of_nat (List.length l)).

(** [np.allclose(l, b, rtol, atol)]:
    every [a] of [l] has [|a - b| <= atol + rtol * |b|].  The test is
    decided on the exact values here; numpy decides it on doubles, so for
    a member within rounding error of the bound the two can differ (see
    [rounding_margin] below). *)
Definition allclose (l : list Q) (b rtol atol : Q) : bool :=
  forallb (fun a => Qle_bool (Qabs (a - b)) (atol + rtol * Qabs b)) l.

(** The default [rtol] of [np.allclose]. *)
Definition default_rtol : Q := 1 # 100000.

Definition qmin (x y : Q) : Q := if Qle_bool x y then x else y.

(** [np.min(l)]; an empty sequence has no minimum. *)
Definition min (l : list Q) : result Q :=
  match l with
  | [] => Raise (ValueError "zero-size array to reduction operation minimum which has no identity")
  | x :: rest => Ok (fold_left qmin rest x)
  end.

Fixpoint zip_add (d a : list Q) : list Q :=
  match d, a with
  | x :: d', y :: a' => (x + y) :: zip_add d' a'
  | _, _ => []
  end.

(** Broadcasting, for shapes of the same number of dimensions: along each
    dimension the lengths are equal or the one broadcast from is 1. *)
Fixpoint broadcastable (from to : list nat) : bool :=
  match from, to with
  | [], [] => true
  | n :: from', m :: to' => (Nat.eqb n m || Nat.eqb n 1) && broadcastable from' to'
  | _, _ => false
  end.

(** [l] cut into [count] consecutive blocks of [len] elements. *)
Fixpoint blocks {A} (count len : nat) (l : list A) : list (list A) :=
  match count with
  | O => []
  | S count' => firstn len l :: blocks count' len (skipn len l)
  end.

(** The elements of an array of shape [from] as they are read when it is
    broadcast to the shape [to]: a dimension of length 1 is repeated. *)
Fixpoint stretch (from to : list nat) (a : list Q) : list Q :=
  match from, to with
  | n :: from', m :: to' =>
      if Nat.eqb n m
      then List.concat (map (stretch from' to') (blocks n (size from') a))
      else List.concat (repeat (stretch from' to' a) m)
  | _, _ => a
  end.

(** [data += a], [a] an array of shape [shape].  A float takes the shape
    of the array.  An array is added to in place: it keeps its shape, and
    [a] is broadcast to it, its shape filled up with dimensions of length 1
    on the left; an [a] of more dimensions, or of a shape that does not
    broadcast, raises [ValueError] (numpy's message goes on with the
    shapes). *)
Definition iadd (data : ndarray) (shape : list nat) (a : list Q) : result ndarray :=
  match data with
  | Scalar x => Ok (Array shape (map (fun y => x + y) a))
  | Array to d =>
      if Nat.ltb (List.length to) (List.length shape)
      then Raise (ValueError "non-broadcastable output operand")
      else
        let from := (repeat 1%nat (List.length to - List.length shape) ++ shape)%list in
        if broadcastable from to
        then Ok (Array to (zip_add d (stretch from to a)))
        else Raise (ValueError "operands could not be broadcast together")
  end.

(** [data /= n] *)
Definition idiv (data : ndarray) (n : Z) : ndarray :=
  match data with
  | Scalar x => Scalar (x / inject_Z n)
  | Array shape d => Array shape (map (fun x => x / inject_Z n) d)
  end.

End np.

(** ** The builtins the code converts with *)

Class Builtins : Type := {
  (** [int(s)]: [ValueError] when [s] is no integer literal *)
  py_int : string -> result Z;
  (** [float(s)] *)
  py_float : string -> result Q;
  (** ['%s' % x] for a float [x] *)
  str_float : Q -> string;
  (** ['%s' % (l,)] for a list [l] of floats *)
  str_floats : list Q -> string
}.

(** ** The file system and the TIFF files on it *)

Inductive tag_value : Type :=
| TagStr (v : string)     (* isinstance(v, basestring) *)
| TagOther.

(** Page 0 of a TIFF file: its tags in the order [tags.values()] yields
    them, and its image, [asarray()]: an array of the shape [shape] (rows
    and columns, for a grey-level image), its pixels in row-major order. *)
Record TiffPage : Type := {
  tags : list tag_value;
  shape : list nat;
  asarray : list Q
}.

Record World : Type := {
  os_listdir : string -> result (list string);
  os_isdir : string -> bool;
  os_exists : string -> bool;
  os_getmtime : string -> result Q;
  (** [tifffile.TiffFile(p)[0]]; on a file that is no TIFF it raises
      [ValueError "not a valid TIFF file"] *)
  tiff_page : string -> result TiffPage;
  (** what the run has done so far, oldest first *)
  saved : list (string * np.ndarray);      (* tifffile.imsave *)
  linked : list (string * string);         (* os.symlink(src, dst) *)
  made : list string;                      (* os.makedirs *)
  warned : list string                     (* warnings.warn *)
}.

Definition upd {A} (f : string -> A) (p : string) (v : A) : string -> A :=
  fun q => if String.eqb q p then v else f q.

(** The state-and-error monad of code that touches the file system. *)
Definition M (A : Type) : Type := World -> result (A * World).

Definition ret {A} (a : A) : M A := fun w => Ok (a, w).

Definition raise {A} (e : exn) : M A := fun _ => Raise e.

Definition bind {A B} (m : M A) (k : A -> M B) : M B :=
  fun w => match m w with
           | Ok (a, w') => k a w'
           | Raise e => Raise e
           end.

Definition lift {A} (r : result A) : M A :=
  fun w => match r with Ok a => Ok (a, w) | Raise e => Raise e end.

Definition reads {A} (f : World -> A) : M A := fun w => Ok (f w, w).

Declare Scope monad_scope.
Delimit Scope monad_scope with monad.
Notation "x <- c1 ;; c2" := (bind c1 (fun x => c2))
  (at level 61, c1 at next level, right associativity) : monad_scope.
Notation "c1 ;;; c2" := (bind c1 (fun _ => c2))
  (at level 61, right associativity) : monad_scope.
Open Scope monad_scope.

Module os.

Definition listdir (dir : string) : M (list string) :=
  fun w => lift (os_listdir w dir) w.

Definition isdir (p : string) : M bool := reads (fun w => os_isdir w p).

Definition exists_ (p : string) : M bool := reads (fun w => os_exists w p).

Definition getmtime (p : string) : M Q :=
  fun w => lift (os_getmtime w p) w.

(** [os.makedirs(p)]: the leaf directory must not exist yet; the parents
    it creates on the way are not recorded. *)
Definition makedirs (p : string) : M unit :=
  fun w =>
    if os_exists w p then Raise (OSError p)
    else Ok (tt, {| os_listdir := upd (os_listdir w) p (Ok []);
                    os_isdir := upd (os_isdir w) p true;
                    os_exists := upd (os_exists w) p true;
                    os_getmtime := os_getmtime w;
                    tiff_page := tiff_page w;
                    saved := saved w;
                    linked := linked w;
                    made := made w ++ [p];
                    warned := warned w |}).

(** [os.symlink(src, dst)]: [dst] must not exist; afterwards it reads as
    [src] does. *)
Definition symlink (src dst : string) : M unit :=
  fun w =>
    if os_exists w dst then Raise (OSError dst)
    else Ok (tt, {| os_listdir := os_listdir w;
                    os_isdir := upd (os_isdir w) dst (os_isdir w src);
                    os_exists := upd (os_exists w) dst true;
                    os_getmtime := upd (os_getmtime w) dst (os_getmtime w src);
                    tiff_page := upd (tiff_page w) dst (tiff_page w src);
                    saved := saved w;
                    linked := linked w ++ [(src, dst)];
                    made := made w;
                    warned := warned w |}).

End os.

Module tifffile.

Definition TiffFile (p : string) : M TiffPage :=
  fun w => lift (tiff_page w p) w.

(** [tifffile.imsave(p, data)]: the file at [p] now holds [data], whatever
    it held before; the tags the library writes and the time of the new
    file are not modelled.  (The code never saves a float: a window has at
    least one file.) *)
Definition imsave (p : string) (data : np.ndarray) : M unit :=
  fun w =>
    Ok (tt, {| os_listdir := os_listdir w;
               os_isdir := os_isdir w;
               os_exists := upd (os_exists w) p true;
               os_getmtime := os_getmtime w;
               tiff_page :=
                 upd (tiff_page w) p
                     (match data with
                      | np.Array shape px =>
                          Ok {| tags := []; shape := shape; asarray := px |}
                      | np.Scalar x =>
                          Ok {| tags := []; shape := []; asarray := [x] |}
                      end);
               saved := saved w ++ [(p, data)];
               linked := linked w;
               made := made w;
               warned := warned w |}).

End tifffile.

Module warnings.

Definition warn (msg : string) : M unit :=
  fun w =>
    Ok (tt, {| os_listdir := os_listdir w;
               os_isdir := os_isdir w;
               os_exists := os_exists w;
               os_getmtime := os_getmtime w;
               tiff_page := tiff_page w;
               saved := saved w;
               linked := linked w;
               made := made w;
               warned := warned w ++ [msg] |}).

End warnings.

(** ** [readTIFMetadata] (lines 218-230) *)

Definition dict : Type := list (string * string).

(** [metadata[name] = value] *)
Definition dict_set (name value : string) (metadata : dict) : dict :=
  (name, value) :: metadata.

(** [metadata[name]] *)
Fixpoint dict_get (metadata : dict) (name : string) : result string :=
  match metadata with
  | [] => Raise (KeyError name)
  | (k, v) :: rest => if String.eqb k name then Ok v else dict_get rest name
  end.

Fixpoint readTIFMetadata_loop (metadata : dict) (values : list tag_value) : dict :=
  match values with
  | [] => metadata
  | TagOther :: rest => readTIFMetadata_loop metadata rest
  | TagStr v :: rest =>
      match Str.split ":" v with
      | [name; value] => readTIFMetadata_loop (dict_set name value metadata) rest
      | _ => readTIFMetadata_loop metadata rest
      end
  end.

Definition readTIFMetadata (f1 : string) : M dict :=
  p0 <- tifffile.TiffFile f1 ;;
  ret (readTIFMetadata_loop [] (tags p0)).

(** ** Python sequences: slices, [sorted], tuple order *)

Module Py.

(** [l[start:stop]]: a negative bound counts from the end, and both are
    clamped to the list. *)
Definition slice {A} (l : list A) (start stop : Z) : list A :=
  let n := Z.of_nat (List.length l) in
  let clamp i := if i <? 0 then Z.max (i + n) 0 else Z.min i n in
  firstn (Z.to_nat (clamp stop - clamp start)) (skipn (Z.to_nat (clamp start)) l).

(** [x <= y] on [(float, str)] tuples: the first components decide unless
    they are equal. *)
Definition tuple_leb (x y : Q * string) : bool :=
  if Qeq_bool (fst x) (fst y) then String.leb (snd x) (snd y)
  else Qle_bool (fst x) (fst y).

Fixpoint insert (x : Q * string) (l : list (Q * string)) : list (Q * string) :=
  match l with
  | [] => [x]
  | y :: l' => if tuple_leb x y then x :: l else y :: insert x l'
  end.

(** [sorted(l)]: stable, ascending. *)
Definition sorted (l : list (Q * string)) : list (Q * string) :=
  fold_right insert [] l.

(** [a % b]: the sign of the result follows [b]. *)
Definition mod_ (a b : Z) : result Z :=
  if b =? 0 then Raise ZeroDivisionError else Ok (a mod b).

(** Reading a local variable or an attribute that may not be bound. *)
Definition local {A} (name : string) (v : option A) : result A :=
  match v with Some a => Ok a | None => Raise (UnboundLocalError name) end.

Definition attribute {A} (name : string) (v : option A) : result A :=
  match v with Some a => Ok a | None => Raise (AttributeError name) end.

(** [assert c, msg] *)
Definition assert (c : bool) (msg : string) : result unit :=
  if c then Ok tt else Raise (AssertionError msg).

(** [try: m  except ValueError as e: h e]; [m] here only reads. *)
Definition try_except_ValueError {A} (m : M A) (h : string -> M A) : M A :=
  fun w => match m w with
           | Raise (ValueError msg) => h msg w
           | r => r
           end.

End Py.

Section Code.

Context `{Builtins}.

(** [int(meta[key])] and [float(meta[key])] *)
Definition int_field (meta : dict) (key : string) : result Z :=
  rbind (dict_get meta key) py_int.

Definition float_field (meta : dict) (key : string) : result Q :=
  rbind (dict_get meta key) py_float.

(** ** The class [CT] (lines 62-206) *)

(** The attributes of a [CT] object that the embedded methods use;
    [earliest_ct_mtime] and [ct_dir] are unset until [_getCTfiles] sets
    them. *)
Record CT : Type := {
  ct_file_path : string;
  skip_df : bool;
  workdir : string;
  earliest_ct_mtime : option Q;
  ct_dir : option string
}.

Definition set_earliest_ct_mtime (self : CT) (t : Q) : CT :=
  {| ct_file_path := ct_file_path self; skip_df := skip_df self;
     workdir := workdir self; earliest_ct_mtime := Some t;
     ct_dir := ct_dir self |}.

Definition set_ct_dir (self : CT) (d : string) : CT :=
  {| ct_file_path := ct_file_path self; skip_df := skip_df self;
     workdir := workdir self; earliest_ct_mtime := earliest_ct_mtime self;
     ct_dir := Some d |}.

(** [ct_filename_template % x], the template being ['at_%s.tiff'] *)
Definition ct_filename_template (x : string) : string := "at_" ++ x ++ ".tiff".

(** *** [_find_OB_DF_files] (lines 118-139) *)

Definition day : Q := inject_Z (24 * 3600).

(** [x > y] on floats *)
Definition Qgt_bool (x y : Q) : bool := negb (Qle_bool x y).

(** Lines 127-133: the loop over the entries of the calibration directory. *)
Fixpoint find_OB_DF_loop (self : CT) (ob_dir : string) (entries out : list string)
  : M (list string) :=
  match entries with
  | [] => ret out
  | e :: entries' =>
      let p := Str.path_join ob_dir e in
      mt <- os.getmtime p ;;
      earliest <- lift (Py.attribute "earliest_ct_mtime" (earliest_ct_mtime self)) ;;
      if Qgt_bool mt (earliest - day)
      then find_OB_DF_loop self ob_dir entries' (out ++ [p])
      else find_OB_DF_loop self ob_dir entries' out
  end.

Definition _find_OB_DF_files (self : CT) (type subdir : string) : M (list string) :=
  let f1 := ct_file_path self in
  let ipts_dir := getIPTSdir f1 in
  let ob_dir := Str.path_join (Str.path_join ipts_dir "raw") subdir in
  entries <- os.listdir ob_dir ;;
  out <- find_OB_DF_loop self ob_dir entries [] ;;
  if Nat.eqb (List.length out) 0
  then raise (RuntimeError ("There is no " ++ type ++ " files within one day of CT measurement"))
  else
    (if Nat.ltb (List.length out) 5
     then warnings.warn ("Too few " ++ type ++ " files")
     else ret tt) ;;;
    ret out.

(** *** [_getCTfiles] (lines 142-206) *)

(** Lines 152-157: the metadata of an entry, or [None] for the [continue]
    on a file that is no TIFF. *)
Definition readTIFMetadata_or_skip (p : string) : M (option dict) :=
  Py.try_except_ValueError
    (meta1 <- readTIFMetadata p ;; ret (Some meta1))
    (fun msg =>
       if negb (String.eqb msg "not a valid TIFF file")
       then raise (ValueError msg)
       else ret None).

(** Lines 149-163: the loop over the directory of the CT file. *)
Fixpoint getCTfiles_scan (f1 dir : string) (groupID : Z) (entries : list string)
  (files : list string) (angles mtimes : list Q)
  : M (list string * list Q * list Q) :=
  match entries with
  | [] => ret (files, angles, mtimes)
  | entry :: entries' =>
      let p := Str.path_join dir entry in
      d <- os.isdir p ;;
      if d : bool then getCTfiles_scan f1 dir groupID entries' files angles mtimes
      else
        meta1 <- readTIFMetadata_or_skip p ;;
        match meta1 with
        | None => getCTfiles_scan f1 dir groupID entries' files angles mtimes
        | Some meta1 =>
            groupID1 <- lift (int_field meta1 "GroupID") ;;
            if negb (groupID1 =? groupID)
            then getCTfiles_scan f1 dir groupID entries' files angles mtimes
            else
              angle <- lift (float_field meta1 "RotationActual") ;;
              mt <- os.getmtime f1 ;;
              getCTfiles_scan f1 dir groupID entries'
                (files ++ [p]) (angles ++ [angle]) (mtimes ++ [mt])
        end
  end.

(** Lines 192-197: [data] accumulates the frames of one window. *)
Fixpoint sum_frames (files1 : list string) (data : np.ndarray) : M np.ndarray :=
  match files1 with
  | [] => ret data
  | f1 :: files1' =>
      page <- tifffile.TiffFile f1 ;;
      data <- lift (np.iadd data (shape page) (asarray page)) ;;
      sum_frames files1' data
  end.

(** Lines 188-190: the angle of a window, once its frames are seen to
    have the same angle. *)
Definition check_angles (angles1 : list Q) : result Q :=
  let ave_angle := np.average angles1 in
  rbind (Py.assert (np.allclose angles1 ave_angle np.default_rtol (1 # 1000))
           ("angle values incosistent: " ++ str_floats angles1))
        (fun _ => Ok ave_angle).

(** Lines 184-204: one window of frames taken at the same angle. *)
Definition average_window (ct_dir : option string) (frame_size : Z)
  (sublist : list (Q * string)) : M (string * Q) :=
  let angles1 := map fst sublist in
  let files1 := map snd sublist in
  ave_angle <- lift (check_angles angles1) ;;
  data <- sum_frames files1 (np.Scalar 0) ;;
  let data := np.idiv data frame_size in
  ct_dir <- lift (Py.local "ct_dir" ct_dir) ;;
  let newpath := Str.path_join ct_dir (ct_filename_template (str_float ave_angle)) in
  tifffile.imsave newpath data ;;;
  ret (newpath, ave_angle).

(** Lines 173-205: the loop over [enumerate(angle_file_list)]; [rest] is
    what is left of the list at [index]. *)
Fixpoint getCTfiles_frames (ct_dir : option string) (frame_size : Z)
  (angle_file_list : list (Q * string)) (index : Z) (rest : list (Q * string))
  (output_files : list string) (output_angles : list Q)
  : M (list string * list Q) :=
  match rest with
  | [] => ret (output_files, output_angles)
  | (angle, path) :: rest' =>
      if frame_size =? 1 then
        ct_dir' <- lift (Py.local "ct_dir" ct_dir) ;;
        let newpath := Str.path_join ct_dir' (ct_filename_template (str_float angle)) in
        os.symlink path newpath ;;;
        getCTfiles_frames ct_dir frame_size angle_file_list (index + 1) rest'
          (output_files ++ [newpath]) (output_angles ++ [angle])
      else
        r <- lift (Py.mod_ index frame_size) ;;
        if negb (r =? frame_size - 1)
        then getCTfiles_frames ct_dir frame_size angle_file_list (index + 1) rest'
               output_files output_angles
        else
          let sublist := Py.slice angle_file_list (index - (frame_size - 1)) (index + 1) in
          out <- average_window ct_dir frame_size sublist ;;
          getCTfiles_frames ct_dir frame_size angle_file_list (index + 1) rest'
            (output_files ++ [fst out]) (output_angles ++ [snd out])
  end.

Definition _getCTfiles (self : CT) : M (CT * (list string * list Q)) :=
  let f1 := ct_file_path self in
  metadata <- readTIFMetadata f1 ;;
  groupID <- lift (int_field metadata "GroupID") ;;
  let dir := Str.dirname f1 in
  entries <- os.listdir dir ;;
  scanned <- getCTfiles_scan f1 dir groupID entries [] [] [] ;;
  let '(files, angles, mtimes) := scanned in
  earliest <- lift (np.min mtimes) ;;
  let self := set_earliest_ct_mtime self earliest in
  frame_size <- lift (int_field metadata "FrameSize") ;;
  self_dir <-
    (if negb (frame_size =? 1) then
       let ct_dir := Str.path_join (workdir self) "CT_frame_averaged" in
       e <- os.exists_ ct_dir ;;
       (if negb e then os.makedirs ct_dir else ret tt) ;;;
       ret (set_ct_dir self ct_dir, Some ct_dir)
     else ret (self, None)) ;;
  let '(self, ct_dir) := self_dir in
  let angle_file_list := Py.sorted (combine angles files) in
  out <- getCTfiles_frames ct_dir frame_size angle_file_list 0 angle_file_list [] [] ;;
  ret (self, out).

(** *** [sniff] (lines 101-115) and [__init__] (lines 74-98) *)

(** What [sniff] hands to [CTProcessor.__init__]: the pattern and the
    angles of the CT series, the dark-field files (unless skipped) and the
    open-beam files. *)
Record Sniffed : Type := {
  ct_pattern : string;
  angles : list Q;
  dfs : option (list string);
  obs : list string
}.

Definition sniff (self : CT) : M (CT * Sniffed) :=
  r <- _getCTfiles self ;;
  let '(self, (ct_files, angles)) := r in
  d <- lift (Py.attribute "ct_dir" (ct_dir self)) ;;
  let ct_pattern := Str.path_join d (ct_filename_template "%s") in
  ob_files <- _find_OB_DF_files self "Open Beam" "ob" ;;
  dfs <- (if negb (skip_df self)
          then df_files <- _find_OB_DF_files self "Dark field" "df" ;; ret (Some df_files)
          else ret None) ;;
  ret (self, {| ct_pattern := ct_pattern; angles := angles; dfs := dfs; obs := ob_files |}).

(** [CT(ct_file_path, skip_df, workdir, ...)] up to the call of the base
    class constructor. *)
Definition CT__init__ (ct_file_path : string) (skip_df : bool) (workdir : string)
  : M (CT * Sniffed) :=
  e <- os.exists_ workdir ;;
  (if negb e then os.makedirs workdir else ret tt) ;;;
  sniff {| ct_file_path := ct_file_path; skip_df := skip_df; workdir := workdir;
           earliest_ct_mtime := None; ct_dir := None |}.

(** ** [autoreduce] (lines 31-57) *)

(** The test of lines 36 and 38. *)
Definition incomplete (RunNo GroupID GroupSize : Z) : bool :=
  RunNo <? GroupID + GroupSize - 1.

Inductive verdict : Type :=
| Returns      (* line 37: the group is not complete yet *)
| Proceeds.    (* line 40 is reached *)

(** Lines 36-39, as control flow over the outcomes of the two tests. *)
Definition completion_checks (ct_file_path : string) (test36 test38 : bool)
  : result verdict :=
  if test36 then Ok Returns
  else if test38 then Raise (RuntimeError ("Corrupted file? See " ++ ct_file_path))
  else Ok Proceeds.

(** What [autoreduce] passes on: the constructed [CT] with what it sniffed,
    and the output directory; [ct.preprocess()] and [ct.recon()] follow. *)
Record Reduction : Type := {
  ct : CT;
  sniffed : Sniffed;
  outdir : string
}.

(** Lines 40-54: the group is complete. *)
Definition autoreduce_assemble (ct_file_path local_disk_partition : string) (GroupID : Z)
  : M Reduction :=
  let ipts_dir := getIPTSdir ct_file_path in
  let autoreduce_dir := Str.path_join (Str.path_join ipts_dir "shared") "autoreduce" in
  e <- os.exists_ autoreduce_dir ;;
  (if negb e then os.makedirs autoreduce_dir else ret tt) ;;;
  let workdir := Str.path_join local_disk_partition ("work.CT-group-" ++ Str.of_Z GroupID) in
  let outdir := Str.path_join autoreduce_dir ("CT-group-" ++ Str.of_Z GroupID) in
  c <- CT__init__ ct_file_path false workdir ;;
  ret {| ct := fst c; sniffed := snd c; outdir := outdir |}.

(** Lines 32-35: the three sequence fields of the triggering file. *)
Definition autoreduce_fields (ct_file_path : string) : M (Z * Z * Z) :=
  meta <- readTIFMetadata ct_file_path ;;
  RunNo <- lift (int_field meta "RunNo") ;;
  GroupID <- lift (int_field meta "GroupID") ;;
  GroupSize <- lift (int_field meta "GroupSize") ;;
  ret (RunNo, GroupID, GroupSize).

(** [None] is the plain [return] of line 37; the parameter
    [parallel_nodes] only reaches the reconstruction stage. *)
Definition autoreduce (ct_file_path local_disk_partition : string)
  : M (option Reduction) :=
  fields <- autoreduce_fields ct_file_path ;;
  let '(RunNo, GroupID, GroupSize) := fields in
  v <- lift (completion_checks ct_file_path
               (incomplete RunNo GroupID GroupSize)
               (incomplete RunNo GroupID GroupSize)) ;;
  match v with
  | Returns => ret None
  | Proceeds =>
      r <- autoreduce_assemble ct_file_path local_disk_partition GroupID ;;
      ret (Some r)
  end.

End Code.

(** ** A concrete instance of the builtins, on plain decimal literals

    The instance the scenarios below are evaluated with; every general
    statement holds for all instances.  [int] reads an optional minus sign
    and one or more decimal digits; [float] reads the same, optionally
    followed by a point and one or more digits, as the rational the literal
    denotes.  On these literals they agree with Python's, up to the
    rounding of [float]; the other spellings Python accepts (blanks around
    the number, a plus sign, an exponent, [inf], [nan]) are refused here.
    [str] of a float prints the integer part, a point and the fractional
    digits, at least one and at most twelve, as Python does for the short
    decimals of the scenarios; Python turns to exponent notation below
    [1e-4] and for large values, this instance does not. *)

Module Decimal.

Definition digit (c : ascii) : option Z :=
  let n := Z.of_nat (nat_of_ascii c) in
  if (48 <=? n) && (n <=? 57) then Some (n - 48) else None.

(** The digits of [s] read onto [acc]; [None] when [s] has another character. *)
Fixpoint digits (acc : Z) (s : string) : option Z :=
  match s with
  | EmptyString => Some acc
  | String c s' =>
      match digit c with
      | Some d => digits (10 * acc + d) s'
      | None => None
      end
  end.

Definition unsigned (s : string) : option Z :=
  match s with
  | EmptyString => None
  | _ => digits 0 s
  end.

Definition int (s : string) : result Z :=
  let bad := Raise (ValueError ("invalid literal for int() with base 10: " ++ s)) in
  match s with
  | String "-" s' => match unsigned s' with Some n => Ok (- n) | None => bad end
  | _ => match unsigned s with Some n => Ok n | None => bad end
  end.

Definition unsigned_float (s : string) : option Q :=
  match Str.split "." s with
  | [i] => option_map inject_Z (unsigned i)
  | [i; f] =>
      match unsigned i, unsigned f with
      | Some a, Some b =>
          let scale := 10 ^ Z.of_nat (String.length f) in
          Some (Qmake (a * scale + b) (Z.to_pos scale))
      | _, _ => None
      end
  | _ => None
  end.

Definition float (s : string) : result Q :=
  let bad := Raise (ValueError ("could not convert string to float: " ++ s)) in
  match s with
  | String "-" s' => match unsigned_float s' with Some q => Ok (Qopp q) | None => bad end
  | _ => match unsigned_float s with Some q => Ok q | None => bad end
  end.

(** [k] fractional digits of [num / den], [0 <= num < den]. *)
Fixpoint fraction (k : nat) (num den : Z) : string :=
  match k with
  | O => EmptyString
  | S k' =>
      if num =? 0 then EmptyString
      else Str.of_Z (10 * num / den) ++ fraction k' (10 * num mod den) den
  end.

Definition str (q : Q) : string :=
  let n := Z.abs (Qnum q) in
  let d := Z.pos (Qden q) in
  let frac := fraction 12 (n mod d) d in
  (if Qnum q <? 0 then "-" else "") ++ Str.of_Z (n / d) ++ "." ++
  (match frac with EmptyString => "0" | _ => frac end).

#[export] Instance builtins : Builtins :=
  {| py_int := int;
     py_float := float;
     str_float := str;
     str_floats := fun l => "[" ++ Str.join ", " (map str l) ++ "]" |}.

End Decimal.

#[global] Existing Instance Decimal.builtins.

(** ** Concrete file systems *)

Module Disk.

Record file : Type := {
  mtime : Q;
  page : result TiffPage
}.

Fixpoint lookup {A} (p : string) (l : list (string * A)) : option A :=
  match l with
  | [] => None
  | (k, v) :: l' => if String.eqb k p then Some v else lookup p l'
  end.

Definition not_a_tiff : result TiffPage := Raise (ValueError "not a valid TIFF file").

(** A file system with the directories [dirs] (each with its entries and
    its modification time) and the files [files]; nothing has been done
    on it yet. *)
Definition world (dirs : list (string * (Q * list string))) (files : list (string * file))
  : World :=
  {| os_listdir := fun p =>
       match lookup p dirs with Some d => Ok (snd d) | None => Raise (OSError p) end;
     os_isdir := fun p => match lookup p dirs with Some _ => true | None => false end;
     os_exists := fun p =>
       match lookup p dirs, lookup p files with None, None => false | _, _ => true end;
     os_getmtime := fun p =>
       match lookup p files, lookup p dirs with
       | Some f, _ => Ok (mtime f)
       | None, Some d => Ok (fst d)
       | None, None => Raise (OSError p)
       end;
     tiff_page := fun p =>
       match lookup p files with Some f => page f | None => Raise (OSError p) end;
     saved := []; linked := []; made := []; warned := [] |}.

(** A radiograph of a scan group, with the tags the instrument writes;
    its image is given by its rows, all of one length. *)
Definition radiograph (RunNo GroupID GroupSize FrameSize RotationActual : string)
  (t : Q) (rows : list (list Q)) : file :=
  {| mtime := t;
     page := Ok {| tags := [ TagOther;
                             TagStr ("RunNo:" ++ RunNo);
                             TagStr ("GroupID:" ++ GroupID);
                             TagStr ("GroupSize:" ++ GroupSize);
                             TagStr ("FrameSize:" ++ FrameSize);
                             TagStr ("RotationActual:" ++ RotationActual);
                             TagStr "Comment: exposure 30 s: full beam" ];
                   shape := [List.length rows; List.length (hd [] rows)];
                   asarray := List.concat rows |} |}.

(** A file that is no image. *)
Definition other (t : Q) : file := {| mtime := t; page := not_a_tiff |}.

(** A calibration frame: a TIFF without sequence tags (its image plays no
    part, and is left empty). *)
Definition calibration (t : Q) : file :=
  {| mtime := t; page := Ok {| tags := [TagOther]; shape := [0; 0]%nat; asarray := [] |} |}.

End Disk.

(** ** What the specification names *)

(** The completion predicate of the specification:
    [runNo >= groupId + groupSize - 1]. *)
Definition isComplete_spec (runNo groupId groupSize : Z) : bool :=
  runNo >=? groupId + groupSize - 1.

(** The tokens of a path up to and including the first one that begins
    with [IPTS]; all of them when there is none. *)
Fixpoint through_IPTS (tokens : list string) : list string :=
  match tokens with
  | [] => []
  | t :: rest => if Str.startswith t "IPTS" then [t] else t :: through_IPTS rest
  end.

Definition has_IPTS (tokens : list string) : bool :=
  existsb (fun t => Str.startswith t "IPTS") tokens.

(** [autoreduce] with lines 38-39 taken out. *)
Definition autoreduce_single_check `{Builtins} (ct_file_path local_disk_partition : string)
  : M (option Reduction) :=
  fields <- autoreduce_fields ct_file_path ;;
  let '(RunNo, GroupID, GroupSize) := fields in
  if incomplete RunNo GroupID GroupSize then ret None
  else r <- autoreduce_assemble ct_file_path local_disk_partition GroupID ;;
       ret (Some r).

(** The calibration directory of a kind ([ob] or [df]) of the experiment
    the CT file lies in. *)
Definition calibration_dir (self : CT) (subdir : string) : string :=
  Str.path_join (Str.path_join (getIPTSdir (ct_file_path self)) "raw") subdir.

(** The modification time of a path that has one. *)
Definition mtime_of (w : World) (p : string) : Q :=
  match os_getmtime w p with Ok t => t | Raise _ => 0%Q end.

Definition mtimes_known (w : World) (ob_dir : string) (entries : list string) : bool :=
  forallb (fun e => is_ok (os_getmtime w (Str.path_join ob_dir e))) entries.

(** The entries of a calibration directory written later than one day
    before [earliest], as paths. *)
Definition kept (w : World) (ob_dir : string) (earliest : Q) (entries : list string)
  : list string :=
  filter (fun p => Qgt_bool (mtime_of w p) (earliest - day))
         (map (Str.path_join ob_dir) entries).

(** *** Frame averaging, as the specification reads it *)

(** The consecutive full windows of length [n] of a list; what is left
    after the last full window is dropped. *)
Fixpoint windows_aux {A} (fuel n : nat) (l : list A) : list (list A) :=
  match fuel with
  | O => []
  | S fuel' =>
      if Nat.ltb (List.length l) n then []
      else firstn n l :: windows_aux fuel' n (skipn n l)
  end.

Definition windows {A} (n : nat) (l : list A) : list (list A) :=
  windows_aux (List.length l) n l.

(** The pixels of the image at a path. *)
Definition pixels_of (w : World) (f : string) : list Q :=
  match tiff_page w f with Ok p0 => asarray p0 | Raise _ => [] end.

(** The pixel-wise arithmetic mean of images of [npix] pixels. *)
Definition pixel_mean (images : list (list Q)) (npix : nat) : list Q :=
  map (fun i => np.average (map (fun image => nth i image 0%Q) images)) (seq 0 npix).

Fixpoint shape_eqb (a b : list nat) : bool :=
  match a, b with
  | [], [] => true
  | n :: a', m :: b' => Nat.eqb n m && shape_eqb a' b'
  | _, _ => false
  end.

(** The tolerance of the angle test of line 190 around a mean angle:
    [atol + rtol * |mean|], with [atol = 1e-3] and the default [rtol]. *)
Definition tolerance (mean : Q) : Q := ((1 # 1000) + (1 # 100000) * Qabs mean)%Q.

(** What is kept off the tolerance when a statement is to hold for the
    doubles of the code as well: one part in a million, far more than the
    rounding of a mean, a difference and a product of doubles (each a few
    parts in [10^16]) can move either side of the test. *)
Definition rounding_margin : Q := 1 # 1000000.

Section Windows.

Context `{Builtins}.

(** The mean angle of a window, the path of its averaged frame in the
    directory [d], and the averaged frame itself. *)
Definition window_angle (win : list (Q * string)) : Q := np.average (map fst win).

Definition window_path (d : string) (win : list (Q * string)) : string :=
  Str.path_join d (ct_filename_template (str_float (window_angle win))).

Definition window_image (w : World) (shp : list nat) (win : list (Q * string)) : list Q :=
  pixel_mean (map (pixels_of w) (map snd win)) (np.size shp).

(** The file that holds an averaged frame. *)
Definition averaged_page (shp : list nat) (image : list Q) : TiffPage :=
  {| tags := []; shape := shp; asarray := image |}.

(** The frames of every window have the same angle, as line 190 tests it. *)
Definition angles_ok (ws : list (list (Q * string))) : bool :=
  forallb (fun win => is_ok (check_angles (map fst win))) ws.

(** The frames of every window have the same angle, with the margin to
    spare: each is within [(1 - rounding_margin) * tolerance] of the mean
    angle of its window. *)
Definition angles_close (ws : list (list (Q * string))) : bool :=
  forallb (fun win =>
             forallb (fun a => Qle_bool (Qabs (a - window_angle win))
                                        ((1 - rounding_margin) * tolerance (window_angle win)))
                     (map fst win)) ws.

(** Every file of the list is a TIFF whose image has the shape [shp]. *)
Definition frames_ok (w : World) (shp : list nat) (lst : list (Q * string)) : bool :=
  forallb (fun f => match tiff_page w f with
                    | Ok p0 => shape_eqb (shape p0) shp &&
                               Nat.eqb (List.length (asarray p0)) (np.size shp)
                    | Raise _ => false
                    end) (map snd lst).

(** No averaged frame is written over a file of the list. *)
Definition fresh (d : string) (ws : list (list (Q * string))) (lst : list (Q * string))
  : bool :=
  forallb (fun win => negb (existsb (String.eqb (window_path d win)) (map snd lst))) ws.

(** The window of [ws] that is the last to write the file of [win]: a
    later window whose mean angle gives the same file name writes over
    it. *)
Definition last_writer (d : string) (ws : list (list (Q * string)))
  (win : list (Q * string)) : list (Q * string) :=
  fold_left (fun found win' =>
               if String.eqb (window_path d win') (window_path d win) then win' else found)
            ws win.

(** The file at [f] is a TIFF whose image has the shape [shp]. *)
Definition frame_of (shp : list nat) (w : World) (f : string) : Prop :=
  exists p0, tiff_page w f = Ok p0 /\ shape p0 = shp /\
             List.length (asarray p0) = np.size shp.

(** What the loop needs of a window: full, of one angle, made of files of
    the list, and averaged into a file that is none of them. *)
Definition window_ready (d : string) (frame_size : Z) (lst win : list (Q * string)) : Prop :=
  Z.of_nat (List.length win) = frame_size /\
  is_ok (check_angles (map fst win)) = true /\
  incl (map snd win) (map snd lst) /\
  ~ In (window_path d win) (map snd lst).

(** The body of the loop run on each window in turn. *)
Fixpoint average_windows (ct_dir : option string) (frame_size : Z)
  (ws : list (list (Q * string))) (output_files : list string) (output_angles : list Q)
  : M (list string * list Q) :=
  match ws with
  | [] => ret (output_files, output_angles)
  | win :: ws' =>
      out <- average_window ct_dir frame_size win ;;
      average_windows ct_dir frame_size ws'
        (output_files ++ [fst out]) (output_angles ++ [snd out])
  end.

End Windows.

(** Every token followed by a slash, the way [getIPTSdir] builds [p]. *)
Definition slashed (tokens : list string) : string :=
  fold_right (fun t acc => t ++ "/" ++ acc) "" tokens.

(** ** Scenarios

    One experiment directory, [/SNS/VENUS/IPTS-1], with a scan group of four
    radiographs (run numbers 100 to 103) next to a text file and a
    subdirectory, and calibration directories [raw/ob] and [raw/df]. *)

Module Scenario.

Import Decimal.

Local Open Scope Q_scope.

Definition ct_path (name : string) : string := "/SNS/VENUS/IPTS-1/raw/ct/" ++ name.
Definition ob_path (name : string) : string := "/SNS/VENUS/IPTS-1/raw/ob/" ++ name.
Definition df_path (name : string) : string := "/SNS/VENUS/IPTS-1/raw/df/" ++ name.

Definition ct_entries : list string :=
  ["f1.tiff"; "f2.tiff"; "notes.txt"; "f3.tiff"; "f4.tiff"; "sub"].

Definition ob_entries : list string :=
  ["ob1.tiff"; "ob2.tiff"; "old.tiff"; "ob3.tiff"; "edge.tiff";
   "ob4.tiff"; "ob5.tiff"; "archive"].

Definition df_entries : list string :=
  ["df1.tiff"; "df2.tiff"; "df3.tiff"; "df4.tiff"].

Definition directories : list (string * (Q * list string)) :=
  [ ("/SNS/VENUS/IPTS-1/raw/ct", (200040, ct_entries));
    (ct_path "sub", (200040, []));
    ("/SNS/VENUS/IPTS-1/raw/ob", (150000, ob_entries));
    (ob_path "archive", (150000, []));
    ("/SNS/VENUS/IPTS-1/raw/df", (150000, df_entries));
    ("/SNS/VENUS/IPTS-1/shared/autoreduce", (100, [])) ].

(** The trigger of the scenarios is [f4.tiff], written at 200030; one day
    before that is 113630, the time of [edge.tiff]. *)
Definition calibration_files : list (string * Disk.file) :=
  [ (ob_path "ob1.tiff", Disk.calibration 190000);
    (ob_path "ob2.tiff", Disk.calibration 190010);
    (ob_path "old.tiff", Disk.calibration 20000);
    (ob_path "ob3.tiff", Disk.calibration 190020);
    (ob_path "edge.tiff", Disk.calibration 113630);
    (ob_path "ob4.tiff", Disk.calibration 190030);
    (ob_path "ob5.tiff", Disk.calibration 190040);
    (df_path "df1.tiff", Disk.calibration 190100);
    (df_path "df2.tiff", Disk.calibration 190110);
    (df_path "df3.tiff", Disk.calibration 190120);
    (df_path "df4.tiff", Disk.calibration 190130) ].

(** The scan group: frame size and the four angles vary with the scenario. *)
Definition group (FrameSize a1 a2 a3 a4 : string) : list (string * Disk.file) :=
  [ (ct_path "f1.tiff", Disk.radiograph "100" "100" "4" FrameSize a1 200000 [[2; 4; 6]]);
    (ct_path "f2.tiff", Disk.radiograph "101" "100" "4" FrameSize a2 200010 [[4; 8; 0]]);
    (ct_path "notes.txt", Disk.other 5);
    (ct_path "f3.tiff", Disk.radiograph "102" "100" "4" FrameSize a3 200020 [[1; 1; 1]]);
    (ct_path "f4.tiff", Disk.radiograph "103" "100" "4" FrameSize a4 200030 [[3; 5; 2]]) ].

(** Scenario A: one frame per angle, angles out of order. *)
Definition world_A : World :=
  Disk.world directories (group "1" "10.0" "0.0" "30.0" "20.0" ++ calibration_files).

(** Scenario B: two frames per angle. *)
Definition world_B : World :=
  Disk.world directories (group "2" "0.0" "0.0" "10.0" "10.0" ++ calibration_files).

(** Two frames per angle, the two angles of a window 0.003 degrees apart. *)
Definition world_C : World :=
  Disk.world directories (group "2" "100.0" "100.003" "250.0" "250.003" ++ calibration_files).

(** Two frames per angle, the four frames taken at one angle. *)
Definition world_D : World :=
  Disk.world directories (group "2" "0.0" "0.0" "0.0" "0.0" ++ calibration_files).

(** The [CT] object as [__init__] hands it to [sniff]. *)
Definition self_of (trigger : string) : CT :=
  {| ct_file_path := ct_path trigger; skip_df := false;
     workdir := "/SNSlocal2/work.CT-group-100";
     earliest_ct_mtime := None; ct_dir := None |}.

(** The same object once the earliest CT time is known to be [t]. *)
Definition self_at (t : Q) : CT :=
  {| ct_file_path := ct_path "f4.tiff"; skip_df := false;
     workdir := "/SNSlocal2/work.CT-group-100";
     earliest_ct_mtime := Some t;
     ct_dir := Some "/SNSlocal2/work.CT-group-100/CT_frame_averaged" |}.

Definition averaged (name : string) : string :=
  "/SNSlocal2/work.CT-group-100/CT_frame_averaged/" ++ name.

(** The files of Scenario B with their angles as read, in sorted order. *)
Definition sorted_B : list (Q * string) :=
  [ (0 # 10, ct_path "f1.tiff"); (0 # 10, ct_path "f2.tiff");
    (100 # 10, ct_path "f3.tiff"); (100 # 10, ct_path "f4.tiff") ].

End Scenario.

(** ** [decorators.mpi_parallelize] (decorators.py, lines 47-56) *)

Module decorators.

(** Lines 47-51: the number of MPI processes.  [nodes] is
    [kwds.get('nodes', None)], an integer or [None]; [cpu_count] is what
    [psutil.cpu_count()] returns, an integer. *)
Definition mpi_nodes (nodes : option Z) (cpu_count : Z) : Z :=
  let nodes :=
    match nodes with
    | None => cpu_count - 1
    | Some n => if n =? 0 then cpu_count - 1 else n
    end in
  Z.max nodes 1.

(** Line 53: ['mpirun -np %(nodes)s python %(pyfile)s' % locals()] *)
Definition mpi_cmd (nodes : Z) (pyfile : string) : string :=
  "mpirun -np " ++ Str.of_Z nodes ++ " python " ++ pyfile.

(** Lines 47-56: [system] is [os.system], which returns the exit status
    of the command. *)
Definition mpi_run (nodes : option Z) (cpu_count : Z) (pyfile : string)
  (system : string -> Z) : result unit :=
  let cmd := mpi_cmd (mpi_nodes nodes cpu_count) pyfile in
  if negb (system cmd =? 0) then Raise (RuntimeError (cmd ++ " failed")) else Ok tt.

End decorators.

(** ** The configuration listing of [jnbui/tomoreconui.py] (lines 153-159
    and 344-350) *)

Module tomoreconui.

(** [sv = str(v)], then [if len(sv) > 60: sv = sv[:50] + '...'] *)
Definition shown (sv : string) : string :=
  if Nat.ltb 60 (String.length sv) then String.substring 0 50 sv ++ "..." else sv.

Fixpoint spaces (n : nat) : string :=
  match n with
  | O => EmptyString
  | S n' => String " " (spaces n')
  end.

(** ["{0:20}{1:<}".format(k, sv)]: the key padded with spaces to twenty
    characters, then the value. *)
Definition format_line (k sv : string) : string :=
  k ++ spaces (20 - String.length k) ++ sv.

(** The lines printed for the items of [config.__dict__], each value
    already turned into a string. *)
Fixpoint config_lines (items : list (string * string)) : list string :=
  match items with
  | [] => []
  | (k, v) :: items' =>
      if Str.startswith k "_" then config_lines items'
      else format_line k (shown v) :: config_lines items'
  end.

End tomoreconui.

(** The number of times a character occurs in a string. *)
Fixpoint count_char (c : ascii) (s : string) : nat :=
  match s with
  | EmptyString => O
  | String a s' => if Ascii.eqb a c then S (count_char c s') else count_char c s'
  end.

(** A file of the scan group [groupID] in the directory [dir], with its
    angle: a listed entry that is no directory, a TIFF whose [GroupID]
    reads as [groupID] and whose [RotationActual] reads as [angle]. *)
Definition group_member `{Builtins} (w : World) (dir : string) (groupID : Z)
  (entries : list string) (p : string) (angle : Q) : Prop :=
  exists entry p0,
    In entry entries /\ p = Str.path_join dir entry /\
    os_isdir w p = false /\ tiff_page w p = Ok p0 /\
    int_field (readTIFMetadata_loop [] (tags p0)) "GroupID" = Ok groupID /\
    float_field (readTIFMetadata_loop [] (tags p0)) "RotationActual" = Ok angle.

(** * Properties *)

(** ** Strings and paths *)

Lemma append_nil_r (s : string) : s ++ "" = s.
Proof. induction s as [|c s IH]; simpl; [reflexivity | now rewrite IH]. Qed.

Lemma append_assoc (a b c : string) : (a ++ b) ++ c = a ++ (b ++ c).
Proof. induction a as [|x a IH]; simpl; [reflexivity | now rewrite IH]. Qed.

Lemma split_nonempty sep s : Str.split sep s <> [].
Proof.
  destruct s as [|c s]; simpl; [discriminate|].
  destruct (Ascii.eqb c sep); [discriminate|].
  destruct (Str.split sep s); discriminate.
Qed.

(** Writing a slash after every field of a path gives the path back, with
    one slash more. *)
Lemma slashed_split s : slashed (Str.split "/" s) = s ++ "/".
Proof.
  induction s as [|c s IH]; simpl; [reflexivity|].
  destruct (Ascii.eqb_spec c "/") as [->|Hc].
  - simpl. now rewrite IH.
  - destruct (Str.split "/" s) as [|tok rest] eqn:Es.
    + now destruct (split_nonempty "/" s).
    + simpl in *. now rewrite IH.
Qed.

Lemma slashed_join tokens :
  tokens <> [] -> slashed tokens = Str.join "/" tokens ++ "/".
Proof.
  induction tokens as [|t l IH]; intros Hl; [congruence|].
  destruct l as [|u l].
  - reflexivity.
  - change (slashed (t :: u :: l)) with (t ++ "/" ++ slashed (u :: l)).
    rewrite IH by discriminate.
    change (Str.join "/" (t :: u :: l)) with (t ++ "/" ++ Str.join "/" (u :: l)).
    now rewrite !append_assoc.
Qed.

Lemma getIPTSdir_loop_slashed p tokens :
  getIPTSdir_loop p tokens = p ++ slashed (through_IPTS tokens).
Proof.
  revert p. induction tokens as [|t l IH]; intros p; simpl.
  - now rewrite append_nil_r.
  - destruct (Str.startswith t "IPTS"); simpl.
    + reflexivity.
    + rewrite IH. now rewrite !append_assoc.
Qed.

Lemma through_IPTS_none tokens :
  has_IPTS tokens = false -> through_IPTS tokens = tokens.
Proof.
  unfold has_IPTS. induction tokens as [|t l IH]; simpl; [reflexivity|].
  destruct (Str.startswith t "IPTS"); simpl; [discriminate|].
  intros Hl. now rewrite IH.
Qed.

(** [through_IPTS] stops at the first token that begins with [IPTS]. *)
Lemma through_IPTS_first tokens :
  has_IPTS tokens = true ->
  exists pre tok post,
    tokens = (pre ++ tok :: post)%list /\ has_IPTS pre = false /\
    Str.startswith tok "IPTS" = true /\ through_IPTS tokens = (pre ++ [tok])%list.
Proof.
  unfold has_IPTS. induction tokens as [|t l IH]; simpl; [discriminate|].
  destruct (Str.startswith t "IPTS") eqn:Et; simpl.
  - intros _. exists [], t, l. now rewrite Et.
  - intros Hl. destruct (IH Hl) as (pre & tok & post & -> & Hpre & Htok & Hthr).
    exists (t :: pre), tok, post. simpl. rewrite Et, Hthr. auto.
Qed.

Lemma through_IPTS_nonempty tokens : tokens <> [] -> through_IPTS tokens <> [].
Proof.
  destruct tokens as [|t l]; [congruence|]. intros _. simpl.
  destruct (Str.startswith t "IPTS"); discriminate.
Qed.

(** C10, as the code has it: [getIPTSdir] never fails.  When a segment of
    the path begins with IPTS it returns the segments up to and including
    the first such one, joined by slashes and followed by a slash; when
    none does it returns the whole path followed by a slash. *)
Theorem getIPTSdir_total (f1 : string) :
  getIPTSdir f1 =
  if has_IPTS (Str.split "/" f1)
  then Str.join "/" (through_IPTS (Str.split "/" f1)) ++ "/"
  else f1 ++ "/".
Proof.
  unfold getIPTSdir. rewrite getIPTSdir_loop_slashed. simpl.
  destruct (has_IPTS (Str.split "/" f1)) eqn:E.
  - apply slashed_join, through_IPTS_nonempty, split_nonempty.
  - rewrite (through_IPTS_none _ E). apply slashed_split.
Qed.

(** The experiment directory of the scenarios. *)
Lemma getIPTSdir_scenario :
  getIPTSdir "/SNS/VENUS/IPTS-1/raw/ct/f4.tiff" = "/SNS/VENUS/IPTS-1/".
Proof. reflexivity. Qed.

(** C10 as stated fails: a path with no IPTS segment is answered, not
    refused. *)
Lemma getIPTSdir_no_IPTS_returns :
  has_IPTS (Str.split "/" "/tmp/scan/f.tiff") = false /\
  getIPTSdir "/tmp/scan/f.tiff" = "/tmp/scan/f.tiff/".
Proof. split; reflexivity. Qed.

(** ** The completion decision of [autoreduce] *)

Section Completion.

Context `{Builtins}.

(** The test of the code is the negation of the predicate of the
    specification. *)
Lemma incomplete_isComplete (RunNo GroupID GroupSize : Z) :
  incomplete RunNo GroupID GroupSize = negb (isComplete_spec RunNo GroupID GroupSize).
Proof.
  unfold incomplete, isComplete_spec.
  rewrite Z.geb_leb, Z.leb_antisym, negb_involutive. reflexivity.
Qed.

(** Reading the metadata leaves the file system as it was. *)
Lemma readTIFMetadata_reads (f1 : string) (w w' : World) (meta : dict) :
  readTIFMetadata f1 w = Ok (meta, w') -> w' = w.
Proof.
  unfold readTIFMetadata, bind, tifffile.TiffFile, lift, ret.
  destruct (tiff_page w f1); intros E; inversion E; reflexivity.
Qed.

Lemma autoreduce_fields_reads (f1 : string) (w w' : World) (fields : Z * Z * Z) :
  autoreduce_fields f1 w = Ok (fields, w') -> w' = w.
Proof.
  unfold autoreduce_fields, bind at 1.
  destruct (readTIFMetadata f1 w) as [[meta w1]|e] eqn:E; [|discriminate].
  apply readTIFMetadata_reads in E. subst w1.
  unfold bind, lift, ret.
  destruct (int_field meta "RunNo"); [|discriminate].
  destruct (int_field meta "GroupID"); [|discriminate].
  destruct (int_field meta "GroupSize"); [|discriminate].
  intros E; inversion E; reflexivity.
Qed.

(** C1: on a file whose sequence fields read as [RunNo], [GroupID] and
    [GroupSize], [autoreduce] decides by the predicate
    [RunNo >= GroupID + GroupSize - 1]: when it is false the call returns at
    once, with nothing done; when it is true the call goes on to assemble
    the group. *)
Theorem autoreduce_completion (w : World) (ct_file_path local_disk_partition : string)
  (RunNo GroupID GroupSize : Z) :
  autoreduce_fields ct_file_path w = Ok ((RunNo, GroupID, GroupSize), w) ->
  autoreduce ct_file_path local_disk_partition w =
  if isComplete_spec RunNo GroupID GroupSize
  then (r <- autoreduce_assemble ct_file_path local_disk_partition GroupID ;;
        ret (Some r)) w
  else Ok (None, w).
Proof.
  intros Hfields. unfold autoreduce, bind. rewrite Hfields.
  rewrite incomplete_isComplete.
  destruct (isComplete_spec RunNo GroupID GroupSize); reflexivity.
Qed.

(** Lines 36-39 as a case table over two tests taken apart: after a first
    evaluation that holds, a second one that fails would raise the error
    that names the triggering file.  [autoreduce] gives both tests the same
    three values, so it never is in that case (see below). *)
Lemma completion_checks_table (ct_file_path : string)
  (RunNo GroupID GroupSize RunNo' GroupID' GroupSize' : Z) :
  completion_checks ct_file_path
    (incomplete RunNo GroupID GroupSize) (incomplete RunNo' GroupID' GroupSize') =
  if isComplete_spec RunNo GroupID GroupSize
  then if isComplete_spec RunNo' GroupID' GroupSize'
       then Ok Proceeds
       else Raise (RuntimeError ("Corrupted file? See " ++ ct_file_path))
  else Ok Returns.
Proof.
  rewrite !incomplete_isComplete. unfold completion_checks.
  destruct (isComplete_spec RunNo GroupID GroupSize),
    (isComplete_spec RunNo' GroupID' GroupSize'); reflexivity.
Qed.

(** C9: both tests of [autoreduce] read the same three values, so the
    checks never raise, and the call is the one without lines 38-39. *)
Theorem autoreduce_never_corrupted (w : World) (ct_file_path local_disk_partition : string) :
  (forall RunNo GroupID GroupSize,
      completion_checks ct_file_path
        (incomplete RunNo GroupID GroupSize) (incomplete RunNo GroupID GroupSize) =
      Ok (if incomplete RunNo GroupID GroupSize then Returns else Proceeds)) /\
  autoreduce ct_file_path local_disk_partition w =
  autoreduce_single_check ct_file_path local_disk_partition w.
Proof.
  split.
  - intros RunNo GroupID GroupSize. unfold completion_checks.
    destruct (incomplete RunNo GroupID GroupSize); reflexivity.
  - unfold autoreduce, autoreduce_single_check, bind.
    destruct (autoreduce_fields ct_file_path w) as [[[[RunNo GroupID] GroupSize] w1]|e];
      [|reflexivity].
    unfold completion_checks, lift.
    destruct (incomplete RunNo GroupID GroupSize); reflexivity.
Qed.

End Completion.

(** The last file of the group (run 103 of 100..103) starts the assembly;
    the second one (run 101) returns with nothing done. *)
Lemma autoreduce_completion_scenario :
  (isComplete_spec 103 100 4 = true /\
   autoreduce (Scenario.ct_path "f4.tiff") "/SNSlocal2" Scenario.world_B =
   if isComplete_spec 103 100 4
   then (r <- autoreduce_assemble (Scenario.ct_path "f4.tiff") "/SNSlocal2" 100 ;;
         ret (Some r)) Scenario.world_B
   else Ok (None, Scenario.world_B)) /\
  (isComplete_spec 101 100 4 = false /\
   autoreduce (Scenario.ct_path "f2.tiff") "/SNSlocal2" Scenario.world_B =
   if isComplete_spec 101 100 4
   then (r <- autoreduce_assemble (Scenario.ct_path "f2.tiff") "/SNSlocal2" 100 ;;
         ret (Some r)) Scenario.world_B
   else Ok (None, Scenario.world_B)).
Proof.
  split; (split; [reflexivity|]).
  - apply (autoreduce_completion Scenario.world_B (Scenario.ct_path "f4.tiff")
             "/SNSlocal2" 103 100 4).
    vm_compute. reflexivity.
  - apply (autoreduce_completion Scenario.world_B (Scenario.ct_path "f2.tiff")
             "/SNSlocal2" 101 100 4).
    vm_compute. reflexivity.
Defined.

(** ** Calibration files: [_find_OB_DF_files] *)

Lemma Qgt_bool_lt (x y : Q) : Qgt_bool x y = true <-> (y < x)%Q.
Proof.
  unfold Qgt_bool. rewrite negb_true_iff. split.
  - intros E. apply Qnot_le_lt. intros Hle.
    apply Qle_bool_iff in Hle. congruence.
  - intros Hlt. destruct (Qle_bool x y) eqn:E; [|reflexivity].
    apply Qle_bool_iff in E. now apply Qlt_not_le in Hlt.
Qed.

Section Calibration.

Variables (self : CT) (w : World) (t : Q).

Hypothesis earliest_known : earliest_ct_mtime self = Some t.

(** The loop keeps, in order, the paths of [kept]. *)
Lemma find_OB_DF_loop_kept (ob_dir : string) (entries out : list string) :
  mtimes_known w ob_dir entries = true ->
  find_OB_DF_loop self ob_dir entries out w = Ok ((out ++ kept w ob_dir t entries)%list, w).
Proof.
  revert out. induction entries as [|e entries IH]; intros out Hmt.
  - simpl. unfold ret. now rewrite app_nil_r.
  - simpl in Hmt. apply andb_true_iff in Hmt as [He Hmt].
    cbn [find_OB_DF_loop]. unfold bind at 1, os.getmtime, lift at 1.
    unfold kept, mtime_of. cbn [map filter].
    destruct (os_getmtime w (Str.path_join ob_dir e)) as [mt|] eqn:Emt; [|discriminate].
    unfold bind at 1, lift at 1. rewrite earliest_known. cbn [Py.attribute].
    destruct (Qgt_bool mt (t - day)).
    + rewrite IH by assumption. unfold kept, mtime_of.
      now rewrite <- app_assoc.
    + now rewrite IH by assumption.
Qed.

Variables (type subdir : string) (entries : list string).

Let ob_dir := calibration_dir self subdir.

Hypothesis listed : os_listdir w ob_dir = Ok entries.

Hypothesis timed : mtimes_known w ob_dir entries = true.

(** The whole method, by the number of kept paths. *)
Lemma find_OB_DF_files_run :
  _find_OB_DF_files self type subdir w =
  match kept w ob_dir t entries with
  | [] => Raise (RuntimeError ("There is no " ++ type ++
                               " files within one day of CT measurement"))
  | out =>
      if Nat.ltb (List.length out) 5
      then (warnings.warn ("Too few " ++ type ++ " files") ;;; ret out) w
      else Ok (out, w)
  end.
Proof.
  unfold _find_OB_DF_files. fold (calibration_dir self subdir). fold ob_dir.
  unfold bind at 1, os.listdir, lift at 1. rewrite listed.
  unfold bind at 1. rewrite find_OB_DF_loop_kept by exact timed.
  cbn [app].
  destruct (kept w ob_dir t entries) as [|p out]; [reflexivity|].
  cbn [List.length Nat.eqb].
  destruct (Nat.ltb (S (List.length out)) 5); reflexivity.
Qed.

(** C6: with no kept file the lookup raises the error that names the kind;
    with one to four it warns and returns them; with five or more (five in
    particular) it returns them and warns of nothing. *)
Theorem find_OB_DF_files_count :
  let out := kept w ob_dir t entries in
  let result := _find_OB_DF_files self type subdir w in
  (out = [] ->
   result = Raise (RuntimeError ("There is no " ++ type ++
                                 " files within one day of CT measurement"))) /\
  ((0 < List.length out < 5)%nat ->
   exists w', result = Ok (out, w') /\
              warned w' = (warned w ++ [("Too few " ++ type ++ " files")%string])%list) /\
  ((5 <= List.length out)%nat -> result = Ok (out, w)).
Proof.
  cbv zeta. rewrite find_OB_DF_files_run.
  destruct (kept w ob_dir t entries) as [|p out] eqn:E.
  - repeat split; [intros [Hlt _]|intros Hlt]; simpl in Hlt; lia.
  - cbv beta iota zeta. repeat split.
    + discriminate.
    + intros [_ Hlt]. apply Nat.ltb_lt in Hlt. rewrite Hlt.
      eexists. split; reflexivity.
    + intros Hge. apply Nat.ltb_ge in Hge. now rewrite Hge.
Qed.

(** C5, as the code has it: what the lookup returns are entries of the
    calibration directory itself, and an entry that is a file is returned
    exactly when its modification time is later than, not equal to, one
    day before the earliest CT time. *)
Theorem find_OB_DF_files_window (out : list string) (w' : World) :
  _find_OB_DF_files self type subdir w = Ok (out, w') ->
  (forall p, In p out -> exists e, In e entries /\ p = Str.path_join ob_dir e) /\
  (forall e, In e entries ->
     os_isdir w (Str.path_join ob_dir e) = false ->
     (In (Str.path_join ob_dir e) out <->
      (t - day < mtime_of w (Str.path_join ob_dir e))%Q)).
Proof.
  rewrite find_OB_DF_files_run. intros Hrun.
  assert (Hout : out = kept w ob_dir t entries).
  { destruct (kept w ob_dir t entries) as [|p l]; [discriminate|].
    cbv beta iota zeta in Hrun.
    destruct (Nat.ltb (List.length (p :: l)) 5); inversion Hrun; reflexivity. }
  subst out. clear Hrun. unfold kept. split.
  - intros p Hp. apply filter_In in Hp as [Hp _].
    apply in_map_iff in Hp as (e & <- & He). now exists e.
  - intros e He _. rewrite filter_In, Qgt_bool_lt. split.
    + now intros [_ Hlt].
    + intros Hlt. split; [|exact Hlt]. now apply in_map.
Qed.

End Calibration.

(** Four dark-field files of the last day: returned, with a warning. *)
Lemma find_OB_DF_files_count_scenario :
  exists w',
    _find_OB_DF_files (Scenario.self_at 200030) "Dark field" "df" Scenario.world_B =
    Ok (map Scenario.df_path Scenario.df_entries, w') /\
    warned w' = ["Too few Dark field files"].
Proof.
  destruct (find_OB_DF_files_count (Scenario.self_at 200030) Scenario.world_B 200030
              eq_refl "Dark field" "df" Scenario.df_entries)
    as (_ & Hfew & _); [vm_compute; reflexivity ..|].
  apply Hfew. vm_compute. split; repeat constructor.
Defined.

(** In the open-beam directory of the scenario the files of the last day
    are in the returned list and the one written four days before is not. *)
Lemma find_OB_DF_files_window_scenario :
  (In (Scenario.ob_path "ob3.tiff")
      (map Scenario.ob_path ["ob1.tiff"; "ob2.tiff"; "ob3.tiff"; "ob4.tiff"; "ob5.tiff"; "archive"])
   <-> (200030 - day < mtime_of Scenario.world_B (Scenario.ob_path "ob3.tiff"))%Q) /\
  (In (Scenario.ob_path "old.tiff")
      (map Scenario.ob_path ["ob1.tiff"; "ob2.tiff"; "ob3.tiff"; "ob4.tiff"; "ob5.tiff"; "archive"])
   <-> (200030 - day < mtime_of Scenario.world_B (Scenario.ob_path "old.tiff"))%Q).
Proof.
  destruct (find_OB_DF_files_window (Scenario.self_at 200030) Scenario.world_B 200030
              eq_refl "Open Beam" "ob" Scenario.ob_entries)
    with (out := map Scenario.ob_path
                   ["ob1.tiff"; "ob2.tiff"; "ob3.tiff"; "ob4.tiff"; "ob5.tiff"; "archive"])
         (w' := Scenario.world_B)
    as [_ Hfile]; [vm_compute; reflexivity ..|].
  split.
  - apply (Hfile "ob3.tiff"); [simpl; tauto | vm_compute; reflexivity].
  - apply (Hfile "old.tiff"); [simpl; tauto | vm_compute; reflexivity].
Defined.

(** C5 as stated fails: the earliest CT time being 200030, the file
    [edge.tiff], written exactly 86400 seconds before, is not returned;
    the directory [archive] is. *)
Lemma find_OB_DF_files_excludes_boundary :
  os_isdir Scenario.world_B (Scenario.ob_path "edge.tiff") = false /\
  os_getmtime Scenario.world_B (Scenario.ob_path "edge.tiff") = Ok (inject_Z (200030 - 86400)) /\
  os_isdir Scenario.world_B (Scenario.ob_path "archive") = true /\
  _find_OB_DF_files (Scenario.self_at (inject_Z 200030)) "Open Beam" "ob" Scenario.world_B =
  Ok (map Scenario.ob_path
        ["ob1.tiff"; "ob2.tiff"; "ob3.tiff"; "ob4.tiff"; "ob5.tiff"; "archive"],
      Scenario.world_B).
Proof. repeat split; vm_compute; reflexivity. Qed.

(** ** Collecting the files of a group: lines 149-164 of [_getCTfiles] *)

Lemma try_read_cases (p : string) (w : World) :
  readTIFMetadata_or_skip p w =
  match tiff_page w p with
  | Ok p0 => Ok (Some (readTIFMetadata_loop [] (tags p0)), w)
  | Raise (ValueError msg) =>
      if String.eqb msg "not a valid TIFF file" then Ok (None, w)
      else Raise (ValueError msg)
  | Raise e => Raise e
  end.
Proof.
  unfold readTIFMetadata_or_skip, Py.try_except_ValueError, readTIFMetadata,
    bind, tifffile.TiffFile, lift, ret, raise.
  destruct (tiff_page w p) as [p0|[]]; try reflexivity.
  destruct (String.eqb msg "not a valid TIFF file"); reflexivity.
Qed.

Lemma min_In (l : list Q) (m : Q) : np.min l = Ok m -> In m l.
Proof.
  destruct l as [|x rest]; [discriminate|]. simpl. intros E. inversion E. clear.
  revert x. induction rest as [|y rest IH]; intros x; simpl; [now left|].
  destruct (IH (np.qmin x y)) as [E|Hin]; [|now right; right].
  unfold np.qmin in E at 1. destruct (Qle_bool x y); [now left | now right; left].
Qed.

Section Scan.

Context `{Builtins}.

Variables (f1 dir : string) (groupID : Z) (w : World).

(** The scan reads only; it appends one file, one angle and one time per
    entry of the group, and every time it appends is the time of [f1],
    the triggering file. *)
Lemma getCTfiles_scan_inv (entries files : list string) (angles mtimes : list Q)
  (r : list string * list Q * list Q) (w' : World) :
  getCTfiles_scan f1 dir groupID entries files angles mtimes w = Ok (r, w') ->
  w' = w /\
  exists files' angles' mtimes',
    r = ((files ++ files')%list, (angles ++ angles')%list, (mtimes ++ mtimes')%list) /\
    List.length files' = List.length angles' /\
    List.length angles' = List.length mtimes' /\
    Forall (fun m => os_getmtime w f1 = Ok m) mtimes'.
Proof.
  revert files angles mtimes.
  induction entries as [|entry entries IH]; intros files angles mtimes.
  - simpl. unfold ret. intros E. inversion E. split; [reflexivity|].
    exists [], [], []. rewrite !app_nil_r. auto.
  - cbn [getCTfiles_scan]. unfold bind at 1, os.isdir, reads.
    destruct (os_isdir w (Str.path_join dir entry)); [apply IH|].
    unfold bind at 1. rewrite try_read_cases.
    destruct (tiff_page w (Str.path_join dir entry)) as [p0|e].
    + unfold bind at 1, lift at 1.
      destruct (int_field _ "GroupID") as [groupID1|]; [|discriminate].
      destruct (negb (groupID1 =? groupID)); [apply IH|].
      unfold bind at 1, lift at 1.
      destruct (float_field _ "RotationActual") as [angle|]; [|discriminate].
      unfold bind at 1, os.getmtime, lift at 1.
      destruct (os_getmtime w f1) as [mt|] eqn:Emt; [|discriminate].
      intros E. apply IH in E as (-> & files' & angles' & mtimes' & -> & Hfa & Ham & Hmt).
      split; [reflexivity|].
      exists (Str.path_join dir entry :: files'), (angle :: angles'), (mt :: mtimes').
      rewrite <- !app_assoc. simpl. repeat split; auto.
    + destruct e; try discriminate.
      destruct (String.eqb msg "not a valid TIFF file"); [apply IH | discriminate].
Qed.

End Scan.

(** ** What [_getCTfiles] remembers as the earliest time, and one frame
    per angle *)

Section GetCTfiles.

Context `{Builtins}.

(** With one frame per angle the local [ct_dir] was never bound: the loop
    stops at its first entry. *)
Lemma getCTfiles_frames_unbound (lst rest : list (Q * string)) (index : Z)
  (output_files : list string) (output_angles : list Q) (w : World) :
  rest <> [] ->
  getCTfiles_frames None 1 lst index rest output_files output_angles w =
  Raise (UnboundLocalError "ct_dir").
Proof. destruct rest as [|[angle path] rest]; [congruence | reflexivity]. Qed.

Lemma insert_nonempty (x : Q * string) (l : list (Q * string)) : Py.insert x l <> [].
Proof. destruct l as [|y l]; simpl; [|destruct (Py.tuple_leb x y)]; discriminate. Qed.

Lemma sorted_nonempty (l : list (Q * string)) : l <> [] -> Py.sorted l <> [].
Proof. destruct l; [congruence|]. intros _. apply insert_nonempty. Qed.

(** X6: whatever [_getCTfiles] returns, the time it has stored is the
    modification time of the triggering file. *)
Lemma getCTfiles_earliest_is_trigger (self self' : CT) (w w' : World)
  (out : list string * list Q) :
  _getCTfiles self w = Ok ((self', out), w') ->
  exists t, os_getmtime w (ct_file_path self) = Ok t /\
            earliest_ct_mtime self' = Some t.
Proof.
  unfold _getCTfiles. unfold bind at 1.
  destruct (readTIFMetadata _ w) as [[metadata w1]|] eqn:Emeta; [|discriminate].
  apply readTIFMetadata_reads in Emeta. subst w1.
  unfold bind at 1, lift at 1.
  destruct (int_field metadata "GroupID") as [groupID|]; [|discriminate].
  unfold bind at 1, os.listdir, lift at 1.
  destruct (os_listdir w _) as [entries|]; [|discriminate].
  unfold bind at 1.
  destruct (getCTfiles_scan _ _ _ _ _ _ _ w) as [[[[files angles] mtimes] w1]|] eqn:Escan;
    [|discriminate].
  apply getCTfiles_scan_inv in Escan
    as (-> & files' & angles' & mtimes' & E & _ & _ & Hmt).
  simpl in E. inversion E; subst; clear E.
  unfold bind at 1, lift at 1.
  destruct (np.min mtimes') as [earliest|] eqn:Emin; [|discriminate].
  apply min_In in Emin. rewrite Forall_forall in Hmt. apply Hmt in Emin.
  unfold bind at 1, lift at 1.
  destruct (int_field metadata "FrameSize") as [frame_size|]; [|discriminate].
  unfold bind at 1.
  destruct (negb (frame_size =? 1)).
  - unfold bind at 1, os.exists_, reads.
    destruct (negb (os_exists w _)).
    + unfold bind at 1, os.makedirs.
      destruct (os_exists w _); [discriminate|].
      unfold ret at 1. unfold bind at 1.
      destruct (getCTfiles_frames _ _ _ _ _ _ _ _) as [[out1 w1]|]; [|discriminate].
      unfold ret. intros E. inversion E; subst. now exists earliest.
    + unfold bind at 1, ret at 1, ret at 1. unfold bind at 1.
      destruct (getCTfiles_frames _ _ _ _ _ _ _ _) as [[out1 w1]|]; [|discriminate].
      unfold ret. intros E. inversion E; subst. now exists earliest.
  - unfold ret at 1. unfold bind at 1.
    destruct (getCTfiles_frames _ _ _ _ _ _ _ _) as [[out1 w1]|]; [|discriminate].
    unfold ret. intros E. inversion E; subst. now exists earliest.
Qed.

(** X7: with [FrameSize] 1 the method never returns. *)
Lemma getCTfiles_single_frame_fails (self : CT) (w : World) :
  (forall metadata w', readTIFMetadata (ct_file_path self) w = Ok (metadata, w') ->
                       int_field metadata "FrameSize" = Ok 1) ->
  is_ok (_getCTfiles self w) = false.
Proof.
  intros Hone. unfold _getCTfiles. unfold bind at 1.
  destruct (readTIFMetadata _ w) as [[metadata w1]|] eqn:Emeta; [|reflexivity].
  specialize (Hone _ _ eq_refl).
  apply readTIFMetadata_reads in Emeta. subst w1.
  unfold bind at 1, lift at 1.
  destruct (int_field metadata "GroupID") as [groupID|]; [|reflexivity].
  unfold bind at 1, os.listdir, lift at 1.
  destruct (os_listdir w _) as [entries|]; [|reflexivity].
  unfold bind at 1.
  destruct (getCTfiles_scan _ _ _ _ _ _ _ w) as [[[[files angles] mtimes] w1]|] eqn:Escan;
    [|reflexivity].
  apply getCTfiles_scan_inv in Escan
    as (-> & files' & angles' & mtimes' & E & Hfa & Ham & _).
  simpl in E. inversion E; subst; clear E.
  unfold bind at 1, lift at 1.
  destruct mtimes' as [|mt mtimes']; [reflexivity|].
  cbn [np.min]. unfold bind at 1, lift at 1. rewrite Hone.
  cbn [Z.eqb Pos.eqb negb]. unfold bind at 1, ret at 1. unfold bind at 1.
  rewrite getCTfiles_frames_unbound; [reflexivity|].
  apply sorted_nonempty.
  destruct angles' as [|a angles']; [discriminate|].
  destruct files' as [|f files']; discriminate.
Qed.

End GetCTfiles.

(** C3, on Scenario A (frame size 1, angles 10, 0, 30, 20): the assembly
    does not return the four links; it stops with [ct_dir] unbound. *)
Theorem getCTfiles_scenario_A_unbound :
  _getCTfiles (Scenario.self_of "f4.tiff") Scenario.world_A =
  Raise (UnboundLocalError "ct_dir").
Proof. vm_compute. reflexivity. Qed.

(** C4, on Scenario B triggered by its last file: the four files of the
    group were written at 200000, 200010, 200020 and 200030; the time the
    assembly stores is 200030, the trigger's, and their minimum is 200000. *)
Theorem getCTfiles_scenario_B_earliest :
  map (fun name => os_getmtime Scenario.world_B (Scenario.ct_path name))
      ["f1.tiff"; "f2.tiff"; "f3.tiff"; "f4.tiff"] =
  [Ok 200000%Q; Ok 200010%Q; Ok 200020%Q; Ok 200030%Q] /\
  np.min [200000%Q; 200010%Q; 200020%Q; 200030%Q] = Ok 200000%Q /\
  match _getCTfiles (Scenario.self_of "f4.tiff") Scenario.world_B with
  | Ok ((self, _), _) => earliest_ct_mtime self = Some 200030%Q
  | Raise _ => False
  end.
Proof. split; [|split]; vm_compute; reflexivity. Qed.

(** ** The angles of one window: lines 188-190 *)

Section Angles.

Context `{Builtins}.

Local Open Scope Q_scope.

Lemma allclose_Forall (l : list Q) (b rtol atol : Q) :
  np.allclose l b rtol atol = true <->
  Forall (fun a => Qabs (a - b) <= atol + rtol * Qabs b) l.
Proof.
  unfold np.allclose. rewrite forallb_forall, Forall_forall.
  split; intros Hall a Ha; apply Qle_bool_iff, Hall, Ha.
Qed.

Lemma allclose_Exists (l : list Q) (b rtol atol : Q) :
  Exists (fun a => atol + rtol * Qabs b < Qabs (a - b)) l ->
  np.allclose l b rtol atol = false.
Proof.
  intros Hex. destruct (np.allclose l b rtol atol) eqn:E; [|reflexivity].
  apply allclose_Forall in E. rewrite Forall_forall in E.
  apply Exists_exists in Hex as (a & Ha & Hlt).
  apply Qlt_not_le in Hlt. now destruct Hlt; apply E.
Qed.

(** A window whose members are all within the tolerance of its mean
    passes the test and yields the mean. *)
Lemma check_angles_within (angles1 : list Q) :
  Forall (fun a => Qabs (a - np.average angles1) <= tolerance (np.average angles1)) angles1 ->
  check_angles angles1 = Ok (np.average angles1).
Proof.
  intros Hall. unfold check_angles, tolerance, np.default_rtol in *.
  apply allclose_Forall in Hall. now rewrite Hall.
Qed.

Lemma tolerance_atol (mean : Q) : 1 # 1000 <= tolerance mean.
Proof. unfold tolerance. pose proof (Qabs_nonneg mean). lra. Qed.

(** The margin is kept off a positive bound. *)
Lemma margin_below (x bound : Q) :
  0 <= bound -> x <= (1 - rounding_margin) * bound -> x <= bound.
Proof. unfold rounding_margin. intros Hpos Hx. lra. Qed.

Lemma margin_above (x bound : Q) :
  0 <= bound -> (1 + rounding_margin) * bound < x -> bound < x.
Proof. unfold rounding_margin. intros Hpos Hx. lra. Qed.

(** C7, as the code has it: the angles of a window are tested against
    [1e-3 + 1e-5 * |mean|], not against [1e-3].  With a margin of one part
    in a million kept off that bound, so that the rounding of the doubles
    does not decide: a window with a member further from the mean than the
    bound raises the error; a window whose members are all within the bound
    (all within [1e-3] in particular) passes and yields its mean. *)
Theorem check_angles_tolerance (angles1 : list Q) :
  let mean := np.average angles1 in
  let tol := (1 # 1000) + (1 # 100000) * Qabs mean in
  (Exists (fun a => (1 + rounding_margin) * tol < Qabs (a - mean)) angles1 ->
   check_angles angles1 =
   Raise (AssertionError ("angle values incosistent: " ++ str_floats angles1))) /\
  (Forall (fun a => Qabs (a - mean) <= (1 - rounding_margin) * tol) angles1 ->
   check_angles angles1 = Ok mean) /\
  (Forall (fun a => Qabs (a - mean) <= (1 - rounding_margin) * (1 # 1000)) angles1 ->
   check_angles angles1 = Ok mean).
Proof.
  cbv zeta. fold (tolerance (np.average angles1)).
  pose proof (tolerance_atol (np.average angles1)) as Htol.
  split; [|split].
  - intros Hex. unfold check_angles.
    rewrite allclose_Exists; [reflexivity|].
    apply Exists_exists in Hex as (a & Ha & Hfar). apply Exists_exists.
    exists a. split; [exact Ha|]. fold np.default_rtol in Htol.
    apply margin_above in Hfar; [|lra]. unfold tolerance, np.default_rtol in *. exact Hfar.
  - intros Hall. apply check_angles_within.
    eapply Forall_impl; [|exact Hall]. intros a Ha. cbv beta in Ha.
    apply margin_below in Ha; [exact Ha | lra].
  - intros Hall. apply check_angles_within.
    eapply Forall_impl; [|exact Hall]. intros a Ha. cbv beta in Ha.
    apply margin_below in Ha; lra.
Qed.

End Angles.

(** A window at 100.0 and 100.003 degrees passes (the members are 0.0015
    from their mean, the tolerance there is 0.002000015); a window at 0
    and 1 degrees raises the error. *)
Lemma check_angles_tolerance_scenario :
  check_angles [1000 # 10; 100003 # 1000]%Q = Ok (np.average [1000 # 10; 100003 # 1000]%Q) /\
  check_angles [0; 1]%Q = Raise (AssertionError "angle values incosistent: [0.0, 1.0]").
Proof.
  split.
  - destruct (check_angles_tolerance [1000 # 10; 100003 # 1000]%Q) as (_ & Hpass & _).
    apply Hpass. repeat constructor; vm_compute; discriminate.
  - destruct (check_angles_tolerance [0; 1]%Q) as (Hraise & _).
    apply Hraise. apply Exists_cons_hd. vm_compute. reflexivity.
Defined.

(** On the bound itself the model and the code part: at 299.996 and
    300.004 degrees each member is exactly [tolerance] from the mean, 0.004,
    and the exact test passes; the doubles nearest to these angles differ
    from their mean by a little more than the double of the bound, and the
    test of the code fails.  The statement above leaves such a window
    open. *)
Example check_angles_on_the_bound :
  Qeq_bool (Qabs ((300004 # 1000) - np.average [299996 # 1000; 300004 # 1000]))
           (tolerance (np.average [299996 # 1000; 300004 # 1000])) = true /\
  check_angles [299996 # 1000; 300004 # 1000]%Q =
  Ok (np.average [299996 # 1000; 300004 # 1000]%Q).
Proof. split; vm_compute; reflexivity. Qed.

(** C7 as stated fails: in the window at 100.0 and 100.003 degrees each
    member is more than [1e-3] from the mean, and the assembly raises no
    error. *)
Lemma check_angles_beyond_1e3_passes :
  (1 # 1000 < Qabs ((1000 # 10) - np.average [1000 # 10; 100003 # 1000]))%Q /\
  (1 # 1000 < Qabs ((100003 # 1000) - np.average [1000 # 10; 100003 # 1000]))%Q /\
  check_angles [1000 # 10; 100003 # 1000]%Q = Ok (np.average [1000 # 10; 100003 # 1000]%Q) /\
  is_ok (_getCTfiles (Scenario.self_of "f4.tiff") Scenario.world_C) = true.
Proof. split; [|split; [|split]]; vm_compute; reflexivity. Qed.
(** ** Frame averaging: the loop of lines 173-205 *)

(** The windows are consecutive and full, and less than one window is
    left over. *)
Lemma windows_aux_partition {A} (n : nat) (fuel : nat) (l : list A) :
  (0 < n)%nat -> (List.length l <= fuel)%nat ->
  exists tail,
    l = (List.concat (windows_aux fuel n l) ++ tail)%list /\
    Forall (fun win => List.length win = n) (windows_aux fuel n l) /\
    (List.length tail < n)%nat.
Proof.
  intros Hn. revert l. induction fuel as [|fuel IH]; intros l Hl.
  - destruct l; [|simpl in Hl; lia]. exists []. simpl. auto.
  - simpl. destruct (Nat.ltb_spec (List.length l) n) as [Hlt|Hge].
    + exists l. simpl. auto.
    + destruct (IH (skipn n l)) as (tail & Hcat & Hall & Htail).
      { rewrite length_skipn. lia. }
      exists tail. simpl. repeat split.
      * rewrite <- app_assoc, <- Hcat. symmetry. apply firstn_skipn.
      * constructor; [|exact Hall]. rewrite length_firstn. lia.
      * exact Htail.
Qed.

Lemma windows_partition {A} (n : nat) (l : list A) :
  (0 < n)%nat ->
  exists tail,
    l = (List.concat (windows n l) ++ tail)%list /\
    Forall (fun win => List.length win = n) (windows n l) /\
    (List.length tail < n)%nat.
Proof. intros Hn. now apply windows_aux_partition. Qed.

(** A slice that starts and stops inside the list. *)
Lemma slice_middle {A} (pre win rest : list A) :
  Py.slice (pre ++ win ++ rest)
           (Z.of_nat (List.length pre))
           (Z.of_nat (List.length pre) + Z.of_nat (List.length win)) = win.
Proof.
  unfold Py.slice. rewrite !length_app.
  replace (Z.of_nat (List.length pre) <? 0) with false by (symmetry; apply Z.ltb_ge; lia).
  replace (Z.of_nat (List.length pre) + Z.of_nat (List.length win) <? 0) with false
    by (symmetry; apply Z.ltb_ge; lia).
  rewrite !Z.min_l by lia.
  replace (Z.of_nat (List.length pre) + Z.of_nat (List.length win) - Z.of_nat (List.length pre))
    with (Z.of_nat (List.length win)) by lia.
  rewrite !Nat2Z.id.
  rewrite skipn_app, skipn_all, Nat.sub_diag. simpl.
  rewrite firstn_app, firstn_all, Nat.sub_diag. simpl. apply app_nil_r.
Qed.

Section Frames.

Context `{Builtins}.

Variables (ct_dir : option string) (frame_size : Z) (lst : list (Q * string)).

Hypothesis several : 1 < frame_size.

(** Entries whose index is not the last of a window are passed over. *)
Lemma frames_skip (a rest : list (Q * string)) (index : Z)
  (output_files : list string) (output_angles : list Q) (w : World) :
  (forall j, 0 <= j < Z.of_nat (List.length a) ->
             (index + j) mod frame_size <> frame_size - 1) ->
  getCTfiles_frames ct_dir frame_size lst index (a ++ rest) output_files output_angles w =
  getCTfiles_frames ct_dir frame_size lst (index + Z.of_nat (List.length a)) rest
    output_files output_angles w.
Proof.
  revert index. induction a as [|[angle path] a IH]; intros index Hskip.
  - simpl. now rewrite Z.add_0_r.
  - cbn [app getCTfiles_frames].
    replace (frame_size =? 1) with false by (symmetry; apply Z.eqb_neq; lia).
    unfold bind at 1, lift, Py.mod_.
    replace (frame_size =? 0) with false by (symmetry; apply Z.eqb_neq; lia).
    replace (index mod frame_size =? frame_size - 1) with false.
    2:{ symmetry. apply Z.eqb_neq. specialize (Hskip 0).
        rewrite Z.add_0_r in Hskip. apply Hskip. simpl. lia. }
    cbn [negb]. rewrite IH.
    + f_equal. simpl List.length. lia.
    + intros j Hj. replace (index + 1 + j) with (index + (1 + j)) by lia.
      apply Hskip. simpl List.length. lia.
Qed.

(** A full window that starts at a multiple of the frame size: its last
    entry runs the body on exactly that window. *)
Lemma frames_window (pre win rest : list (Q * string))
  (output_files : list string) (output_angles : list Q) (w : World) :
  lst = (pre ++ win ++ rest)%list ->
  Z.of_nat (List.length win) = frame_size ->
  Z.of_nat (List.length pre) mod frame_size = 0 ->
  getCTfiles_frames ct_dir frame_size lst (Z.of_nat (List.length pre)) (win ++ rest)
    output_files output_angles w =
  (out <- average_window ct_dir frame_size win ;;
   getCTfiles_frames ct_dir frame_size lst (Z.of_nat (List.length (pre ++ win))) rest
     (output_files ++ [fst out]) (output_angles ++ [snd out])) w.
Proof.
  intros Hlst Hwin Hpre.
  destruct (@exists_last _ win) as (a & [angle path] & Ea).
  { intros ->. simpl in Hwin. lia. }
  assert (Hlen : Z.of_nat (List.length a) = frame_size - 1).
  { rewrite Ea, length_app in Hwin. simpl in Hwin. lia. }
  rewrite Ea at 1. rewrite <- app_assoc. rewrite frames_skip.
  2:{ intros j Hj. rewrite Z.add_mod, Hpre, Z.add_0_l, Z.mod_mod by lia.
      rewrite Z.mod_small by lia. lia. }
  cbn [app getCTfiles_frames].
  replace (frame_size =? 1) with false by (symmetry; apply Z.eqb_neq; lia).
  unfold bind at 1, lift, Py.mod_.
  replace (frame_size =? 0) with false by (symmetry; apply Z.eqb_neq; lia).
  replace ((Z.of_nat (List.length pre) + Z.of_nat (List.length a)) mod frame_size
           =? frame_size - 1) with true.
  2:{ symmetry. apply Z.eqb_eq.
      rewrite Z.add_mod, Hpre, Z.add_0_l, Z.mod_mod by lia.
      rewrite Z.mod_small by lia. lia. }
  cbn [negb].
  replace (Z.of_nat (List.length pre) + Z.of_nat (List.length a) - (frame_size - 1))
    with (Z.of_nat (List.length pre)) by lia.
  replace (Z.of_nat (List.length pre) + Z.of_nat (List.length a) + 1)
    with (Z.of_nat (List.length pre) + Z.of_nat (List.length win)) by lia.
  rewrite Hlst, slice_middle, <- Hlst.
  unfold bind. destruct (average_window ct_dir frame_size win w) as [[out w1]|]; [|reflexivity].
  f_equal. rewrite length_app. lia.
Qed.

(** The loop is the body run on the full windows, in order. *)
Lemma frames_as_windows (ws : list (list (Q * string))) (tail pre : list (Q * string))
  (output_files : list string) (output_angles : list Q) (w : World) :
  lst = (pre ++ List.concat ws ++ tail)%list ->
  Forall (fun win => Z.of_nat (List.length win) = frame_size) ws ->
  Z.of_nat (List.length tail) < frame_size ->
  Z.of_nat (List.length pre) mod frame_size = 0 ->
  getCTfiles_frames ct_dir frame_size lst (Z.of_nat (List.length pre)) (List.concat ws ++ tail)
    output_files output_angles w =
  average_windows ct_dir frame_size ws output_files output_angles w.
Proof.
  revert pre output_files output_angles w.
  induction ws as [|win ws IH]; intros pre output_files output_angles w Hlst Hall Htail Hpre.
  - simpl. rewrite <- (app_nil_r tail), frames_skip; [reflexivity|].
    intros j Hj. rewrite Z.add_mod, Hpre, Z.add_0_l, Z.mod_mod by lia.
    rewrite Z.mod_small by lia. lia.
  - apply Forall_cons_iff in Hall as [Hwin Hall'].
    cbn [List.concat average_windows]. cbn [List.concat] in Hlst.
    rewrite <- app_assoc in *.
    rewrite frames_window; [| exact Hlst | exact Hwin | exact Hpre].
    unfold bind. destruct (average_window ct_dir _ win w) as [[out w1]|]; [|reflexivity].
    apply IH.
    + now rewrite <- app_assoc.
    + exact Hall'.
    + exact Htail.
    + rewrite length_app, Nat2Z.inj_add, Z.add_mod, Hpre, Hwin, Z.mod_same by lia.
      reflexivity.
Qed.

End Frames.

(** ** Frame averaging: one window *)

(** Cutting a list into blocks and joining them gives the list back. *)
Lemma blocks_concat {A} (count len : nat) (l : list A) :
  List.length l = (count * len)%nat -> List.concat (np.blocks count len l) = l.
Proof.
  revert l. induction count as [|count IH]; intros l Hlen.
  - destruct l; [reflexivity | discriminate].
  - cbn [np.blocks List.concat]. rewrite IH.
    + apply firstn_skipn.
    + rewrite length_skipn. simpl in Hlen. lia.
Qed.

Lemma blocks_length {A} (count len : nat) (l : list A) :
  List.length l = (count * len)%nat ->
  Forall (fun b => List.length b = len) (np.blocks count len l).
Proof.
  revert l. induction count as [|count IH]; intros l Hlen; cbn [np.blocks].
  - constructor.
  - simpl in Hlen. constructor.
    + rewrite length_firstn. lia.
    + apply IH. rewrite length_skipn. lia.
Qed.

(** An array read at its own shape is itself. *)
Lemma stretch_same (shape : list nat) (a : list Q) :
  List.length a = np.size shape -> np.stretch shape shape a = a.
Proof.
  revert a. induction shape as [|n shape IH]; intros a Hlen; [reflexivity|].
  cbn [np.stretch]. rewrite Nat.eqb_refl.
  cbn [np.size fold_right] in Hlen. fold (np.size shape) in Hlen.
  rewrite <- (blocks_concat n (np.size shape) a Hlen) at 2.
  f_equal. rewrite <- (map_id (np.blocks n (np.size shape) a)) at 2.
  apply map_ext_in. intros b Hb. apply IH.
  exact (proj1 (Forall_forall _ _) (blocks_length n (np.size shape) a Hlen) b Hb).
Qed.

Lemma broadcastable_same (shape : list nat) : np.broadcastable shape shape = true.
Proof.
  induction shape as [|n shape IH]; [reflexivity|].
  cbn [np.broadcastable]. now rewrite Nat.eqb_refl, IH.
Qed.

(** An image whose shape does not broadcast to the shape of the array is
    refused. *)
Lemma iadd_other_shape (to shape : list nat) (d a : list Q) :
  List.length shape = List.length to ->
  np.broadcastable shape to = false ->
  np.iadd (np.Array to d) shape a =
  Raise (ValueError "operands could not be broadcast together").
Proof.
  intros Hdim Hshape. unfold np.iadd.
  rewrite Hdim, Nat.ltb_irrefl, Nat.sub_diag. cbn [repeat app].
  now rewrite Hshape.
Qed.

(** Two rows of three pixels: a row of three is added to each of them,
    three rows of two are refused although they are six pixels as well,
    and so is an image of more dimensions than the array. *)
Example iadd_shapes :
  np.iadd (np.Array [2; 3]%nat [1; 2; 3; 4; 5; 6]%Q) [1; 3]%nat [10; 20; 30]%Q =
  Ok (np.Array [2; 3]%nat [1 + 10; 2 + 20; 3 + 30; 4 + 10; 5 + 20; 6 + 30]%Q) /\
  np.iadd (np.Array [2; 3]%nat [1; 2; 3; 4; 5; 6]%Q) [3]%nat [10; 20; 30]%Q =
  Ok (np.Array [2; 3]%nat [1 + 10; 2 + 20; 3 + 30; 4 + 10; 5 + 20; 6 + 30]%Q) /\
  np.iadd (np.Array [2; 3]%nat [1; 2; 3; 4; 5; 6]%Q) [3; 2]%nat [1; 2; 3; 4; 5; 6]%Q =
  Raise (ValueError "operands could not be broadcast together") /\
  np.iadd (np.Array [3]%nat [1; 2; 3]%Q) [1; 3]%nat [10; 20; 30]%Q =
  Raise (ValueError "non-broadcastable output operand").
Proof. repeat split. Qed.

(** Adding an image of its own shape to an array adds pixel by pixel. *)
Lemma iadd_same_shape (shape : list nat) (d a : list Q) :
  List.length a = np.size shape ->
  np.iadd (np.Array shape d) shape a = Ok (np.Array shape (np.zip_add d a)).
Proof.
  intros Hlen. unfold np.iadd.
  rewrite Nat.ltb_irrefl, Nat.sub_diag. cbn [repeat app].
  now rewrite broadcastable_same, stretch_same.
Qed.

Lemma shape_eqb_eq (a b : list nat) : shape_eqb a b = true -> a = b.
Proof.
  revert b. induction a as [|n a IH]; intros [|m b] E; try discriminate; [reflexivity|].
  cbn [shape_eqb] in E. apply andb_true_iff in E as [En Ea].
  apply Nat.eqb_eq in En. apply IH in Ea. congruence.
Qed.
Lemma zip_add_length (d a : list Q) :
  List.length a = List.length d -> List.length (np.zip_add d a) = List.length d.
Proof.
  revert a. induction d as [|x d IH]; intros [|y a] Hlen; simpl in *; try congruence.
  now rewrite IH by congruence.
Qed.

Lemma zip_add_nth (d a : list Q) (i : nat) :
  List.length a = List.length d -> (i < List.length d)%nat ->
  nth i (np.zip_add d a) 0%Q = (nth i d 0 + nth i a 0)%Q.
Proof.
  revert a i. induction d as [|x d IH]; intros [|y a] i Hlen Hi; simpl in *; try lia.
  destruct i as [|i]; [reflexivity|]. apply IH; [congruence | lia].
Qed.

Lemma fold_zip_add_length (npix : nat) (images : list (list Q)) (d : list Q) :
  Forall (fun image => List.length image = npix) images ->
  List.length d = npix ->
  List.length (fold_left np.zip_add images d) = npix.
Proof.
  intros Hall. revert d. induction Hall as [|image images Himage _ IH]; intros d Hd.
  - exact Hd.
  - cbn [fold_left]. apply IH. rewrite zip_add_length; lia.
Qed.

(** Pixel [i] of a sum of images is the sum of their pixels [i], taken in
    the same order. *)
Lemma fold_zip_add_nth (npix : nat) (images : list (list Q)) (d : list Q) (i : nat) :
  Forall (fun image => List.length image = npix) images ->
  List.length d = npix -> (i < npix)%nat ->
  nth i (fold_left np.zip_add images d) 0%Q =
  fold_left Qplus (map (fun image => nth i image 0%Q) images) (nth i d 0%Q).
Proof.
  intros Hall. revert d. induction Hall as [|image images Himage _ IH]; intros d Hd Hi.
  - reflexivity.
  - cbn [fold_left map].
    rewrite <- (zip_add_nth d image i) by lia.
    apply IH; [|exact Hi]. rewrite zip_add_length; lia.
Qed.

(** What the code computes for a window of images is their pixel-wise
    mean. *)
Lemma idiv_sum_pixel_mean (npix : nat) (image : list Q) (images : list (list Q)) :
  Forall (fun image => List.length image = npix) (image :: images) ->
  map (fun x => (x / inject_Z (Z.of_nat (List.length (image :: images))))%Q)
      (fold_left np.zip_add images (map (fun y => (0 + y)%Q) image))
  = pixel_mean (image :: images) npix.
Proof.
  intros Hall. apply Forall_cons_iff in Hall as [Himage Hall].
  assert (Hlen : List.length (map (fun y => (0 + y)%Q) image) = npix)
    by now rewrite length_map.
  unfold pixel_mean.
  apply (nth_ext _ _ (0 / inject_Z (Z.of_nat (List.length (image :: images))))%Q
                 (np.average (map (fun im => nth 0 im 0%Q) (image :: images)))).
  - rewrite !length_map, length_seq. now apply fold_zip_add_length.
  - intros i Hi. rewrite length_map, (fold_zip_add_length npix) in Hi by assumption.
    rewrite (map_nth (fun x => (x / _)%Q)).
    rewrite (fold_zip_add_nth npix) by assumption.
    rewrite (nth_indep _ _ (0 + 0)%Q) by lia.
    rewrite (map_nth (fun y => (0 + y)%Q)).
    rewrite (map_nth (fun i => np.average (map (fun im => nth i im 0%Q) (image :: images)))
                     (seq 0 npix) 0%nat).
    rewrite seq_nth by lia. cbn [Nat.add]. unfold np.average.
    cbn [map fold_left List.length]. now rewrite length_map.
Qed.

Section Window.

Context `{Builtins}.

Variables (shp : list nat).

Lemma frame_of_pixels (w : World) (f : string) :
  frame_of shp w f -> List.length (pixels_of w f) = np.size shp.
Proof. intros (p0 & E & _ & Hlen). unfold pixels_of. now rewrite E. Qed.

Lemma sum_frames_array (w : World) (files1 : list string) (d : list Q) :
  Forall (frame_of shp w) files1 -> List.length d = np.size shp ->
  sum_frames files1 (np.Array shp d) w =
  Ok (np.Array shp (fold_left np.zip_add (map (pixels_of w) files1) d), w).
Proof.
  intros Hall. revert d.
  induction Hall as [|f files1 (p0 & E & Hshape & Hlen) _ IH]; intros d Hd.
  - reflexivity.
  - cbn [sum_frames map fold_left]. unfold bind at 1, tifffile.TiffFile, lift at 1.
    rewrite E. unfold bind at 1, lift at 1.
    rewrite Hshape, iadd_same_shape by exact Hlen.
    unfold pixels_of at 2. rewrite E.
    apply IH. rewrite zip_add_length; lia.
Qed.

(** The body of the loop on a window of [frame_size] frames that agree in
    angle and in shape: it writes their pixel-wise mean, an image of their
    shape, under the name of their mean angle. *)
Lemma average_window_run (d : string) (frame_size : Z) (win : list (Q * string))
  (w : World) :
  0 < frame_size ->
  Z.of_nat (List.length win) = frame_size ->
  is_ok (check_angles (map fst win)) = true ->
  Forall (frame_of shp w) (map snd win) ->
  average_window (Some d) frame_size win w =
  (tifffile.imsave (window_path d win) (np.Array shp (window_image w shp win)) ;;;
   ret (window_path d win, window_angle win)) w.
Proof.
  intros Hpos Hlen Hangles Hframes.
  unfold average_window. unfold bind at 1, lift at 1.
  assert (E : check_angles (map fst win) = Ok (window_angle win)).
  { unfold check_angles in *. destruct (Py.assert _ _); [reflexivity | discriminate]. }
  rewrite E. unfold bind at 1.
  destruct win as [|[angle f] win]; [simpl in Hlen; lia|].
  cbn [map fst snd] in *.
  apply Forall_cons_iff in Hframes as [(p0 & Ep0 & Hshape & Hp0) Hrest].
  cbn [sum_frames]. unfold bind at 1, tifffile.TiffFile, lift at 1. rewrite Ep0.
  unfold bind at 1, lift at 1. cbn [np.iadd]. rewrite Hshape.
  rewrite sum_frames_array by (try rewrite length_map; assumption).
  cbn [np.idiv]. unfold bind at 1, lift at 1. cbn [Py.local].
  unfold window_image. cbn [map snd].
  rewrite <- idiv_sum_pixel_mean.
  2:{ constructor.
      - unfold pixels_of. now rewrite Ep0.
      - apply Forall_map. eapply Forall_impl; [|exact Hrest].
        intros g Hg. now apply frame_of_pixels. }
  cbn [List.length] in *. rewrite length_map, length_map, Hlen.
  replace (pixels_of w f) with (asarray p0) by (unfold pixels_of; now rewrite Ep0).
  reflexivity.
Qed.

End Window.

(** ** Frame averaging: the whole loop *)

(** Saving an array: the call is logged, the file holds the array, and
    every other file is as it was. *)
Lemma imsave_run (p : string) (shp : list nat) (px : list Q) (w : World) :
  exists w',
    tifffile.imsave p (np.Array shp px) w = Ok (tt, w') /\
    saved w' = (saved w ++ [(p, np.Array shp px)])%list /\
    tiff_page w' p = Ok (averaged_page shp px) /\
    forall f, f <> p -> tiff_page w' f = tiff_page w f.
Proof.
  eexists. split; [reflexivity|]. split; [reflexivity|]. split.
  - cbn [tiff_page]. unfold upd. now rewrite String.eqb_refl.
  - intros f Hf. cbn [tiff_page]. unfold upd.
    apply String.eqb_neq in Hf. now rewrite Hf.
Qed.

(** The last writer of a file among windows none of which writes it is
    the one found so far. *)
Lemma last_writer_none `{Builtins} (d p : string) (ws : list (list (Q * string)))
  (found : list (Q * string)) :
  existsb (fun win' => String.eqb (window_path d win') p) ws = false ->
  fold_left (fun found win' => if String.eqb (window_path d win') p then win' else found)
            ws found = found.
Proof.
  revert found. induction ws as [|win ws IH]; intros found Hnone; [reflexivity|].
  cbn [existsb] in Hnone. apply orb_false_iff in Hnone as [Hwin Hws].
  cbn [fold_left]. rewrite Hwin. now apply IH.
Qed.

(** Where the windows have different file names, each is the last writer
    of its file. *)
Lemma last_writer_distinct `{Builtins} (d : string) (ws : list (list (Q * string)))
  (win found : list (Q * string)) :
  NoDup (map (window_path d) ws) -> In win ws ->
  fold_left (fun found win' =>
               if String.eqb (window_path d win') (window_path d win) then win' else found)
            ws found = win.
Proof.
  revert found. induction ws as [|x ws IH]; intros found Hnodup Hin; [destruct Hin|].
  cbn [map] in Hnodup. apply NoDup_cons_iff in Hnodup as [Hx Hnodup].
  cbn [fold_left]. destruct Hin as [->|Hin].
  - rewrite String.eqb_refl. apply last_writer_none.
    apply not_true_iff_false. intros Hex.
    apply existsb_exists in Hex as (win' & Hwin' & E). apply String.eqb_eq in E.
    apply Hx. rewrite <- E. now apply in_map.
  - now apply IH.
Qed.

Section Assembly.

Context `{Builtins}.

Variables (d : string) (frame_size : Z) (shp : list nat) (w : World) (lst : list (Q * string)).

Hypothesis several : 1 < frame_size.

(** The body run on windows that are ready: the entries it returns, the
    files it saves, and what every file holds afterwards. *)
Lemma average_windows_run (ws : list (list (Q * string)))
  (output_files : list string) (output_angles : list Q) (wk : World) :
  Forall (window_ready d frame_size lst) ws ->
  Forall (frame_of shp w) (map snd lst) ->
  (forall f, In f (map snd lst) -> tiff_page wk f = tiff_page w f) ->
  exists w',
    average_windows (Some d) frame_size ws output_files output_angles wk =
    Ok (((output_files ++ map (window_path d) ws)%list,
         (output_angles ++ map window_angle ws)%list), w') /\
    saved w' =
    (saved wk ++ map (fun win => (window_path d win, np.Array shp (window_image w shp win))) ws)%list /\
    forall (p : string) (found : list (Q * string)),
      tiff_page w' p =
      if existsb (fun win' => String.eqb (window_path d win') p) ws
      then Ok (averaged_page shp
                 (window_image w shp
                    (fold_left (fun found win' =>
                                  if String.eqb (window_path d win') p then win' else found)
                               ws found)))
      else tiff_page wk p.
Proof.
  intros Hready Hframes. revert output_files output_angles wk.
  induction Hready as [|win ws (Hlen & Hangles & Hincl & Hfresh) _ IH];
    intros output_files output_angles wk Hagree.
  - exists wk. simpl. unfold ret. now rewrite !app_nil_r.
  - cbn [average_windows]. unfold bind at 1.
    rewrite (average_window_run shp d frame_size win wk);
      [| lia | exact Hlen | exact Hangles |].
    2:{ apply Forall_forall. intros f Hf.
        destruct (proj1 (Forall_forall _ _) Hframes f (Hincl f Hf)) as (p0 & E & Hshape & Hp0).
        exists p0. split; [now rewrite Hagree by auto | now split]. }
    replace (window_image wk shp win) with (window_image w shp win).
    2:{ unfold window_image. f_equal. apply map_ext_in. intros f Hf.
        unfold pixels_of. now rewrite Hagree by auto. }
    unfold bind at 1.
    destruct (imsave_run (window_path d win) shp (window_image w shp win) wk)
      as (w1 & -> & Hsaved & Hpage & Hpages).
    unfold ret at 1. cbn [fst snd].
    destruct (IH (output_files ++ [window_path d win])%list
                 (output_angles ++ [window_angle win])%list w1) as (w' & -> & Hsaved' & Hlast).
    { intros f Hf. rewrite Hpages; [now apply Hagree|]. now intros ->. }
    exists w'. cbn [map]. rewrite <- !app_assoc. split; [reflexivity|]. split.
    + rewrite Hsaved', Hsaved, <- app_assoc. reflexivity.
    + intros p found. cbn [existsb fold_left].
      rewrite (Hlast p (if String.eqb (window_path d win) p then win else found)).
      destruct (existsb (fun win' => String.eqb (window_path d win') p) ws) eqn:Elater.
      * now rewrite orb_true_r.
      * rewrite orb_false_r.
        destruct (String.eqb (window_path d win) p) eqn:Ewin.
        -- apply String.eqb_eq in Ewin. subst p.
           now rewrite last_writer_none.
        -- apply String.eqb_neq in Ewin. apply Hpages. congruence.
Qed.

(** Angles that agree with the margin to spare pass the test of the
    code. *)
Lemma angles_close_ok (ws : list (list (Q * string))) :
  angles_close ws = true -> angles_ok ws = true.
Proof.
  unfold angles_close, angles_ok. rewrite !forallb_forall.
  intros Hclose win Hwin. specialize (Hclose win Hwin).
  rewrite forallb_forall in Hclose.
  rewrite check_angles_within; [reflexivity|].
  apply Forall_forall. intros a Ha. specialize (Hclose a Ha).
  apply Qle_bool_iff in Hclose. unfold window_angle in Hclose.
  apply margin_below in Hclose; [exact Hclose|].
  pose proof (tolerance_atol (np.average (map fst win))). lra.
Qed.

(** C2: with [frame_size > 1] the loop works through the list in
    consecutive windows of [frame_size] entries and drops what is left
    after the last full one.  Where the frames of every window agree in
    angle and all images have one shape, each window yields one output
    entry: its angle is the mean of the window's angles, and its file is
    named after that angle and written with the pixel-wise mean of the
    window's images.  When the loop is done the file of a window holds the
    mean of the last window of that name: the window's own mean where no
    two windows have the same name. *)
Theorem getCTfiles_frames_averages :
  let ws := windows (Z.to_nat frame_size) lst in
  angles_close ws = true ->
  frames_ok w shp lst = true ->
  fresh d ws lst = true ->
  (exists tail,
      lst = (List.concat ws ++ tail)%list /\
      Forall (fun win => Z.of_nat (List.length win) = frame_size) ws /\
      Z.of_nat (List.length tail) < frame_size) /\
  exists w',
    getCTfiles_frames (Some d) frame_size lst 0 lst [] [] w =
    Ok ((map (window_path d) ws, map window_angle ws), w') /\
    saved w' =
    (saved w ++ map (fun win => (window_path d win, np.Array shp (window_image w shp win))) ws)%list /\
    Forall (fun win => tiff_page w' (window_path d win) =
                       Ok (averaged_page shp (window_image w shp (last_writer d ws win)))) ws /\
    (NoDup (map (window_path d) ws) ->
     Forall (fun win => tiff_page w' (window_path d win) =
                        Ok (averaged_page shp (window_image w shp win))) ws).
Proof.
  intros ws Hangles Hframes Hfresh. apply angles_close_ok in Hangles.
  destruct (windows_partition (Z.to_nat frame_size) lst) as (tail & Hlst & Hfull & Htail);
    [lia|]. fold ws in Hlst, Hfull.
  assert (Hfull' : Forall (fun win => Z.of_nat (List.length win) = frame_size) ws).
  { eapply Forall_impl; [|exact Hfull]. intros win Hwin. cbv beta in Hwin. lia. }
  split.
  - exists tail. repeat split; [exact Hlst | exact Hfull' | lia].
  - assert (Hloop := frames_as_windows (Some d) frame_size lst several ws tail [] [] [] w).
    cbn [List.length Z.of_nat app] in Hloop. rewrite <- Hlst in Hloop.
    rewrite Hloop; [| reflexivity | exact Hfull' | lia | reflexivity].
    destruct (average_windows_run ws [] [] w) as (w' & Hrun & Hsaved & Hlast).
    + apply Forall_forall. intros win Hwin. repeat split.
      * exact (proj1 (Forall_forall _ _) Hfull' win Hwin).
      * unfold angles_ok in Hangles. rewrite forallb_forall in Hangles. now apply Hangles.
      * intros f Hf. apply in_map_iff in Hf as (x & <- & Hx). apply in_map.
        rewrite Hlst. apply in_or_app. left. apply in_concat. now exists win.
      * unfold fresh in Hfresh. rewrite forallb_forall in Hfresh.
        specialize (Hfresh win Hwin). apply negb_true_iff in Hfresh.
        intros Hin. apply not_true_iff_false in Hfresh. apply Hfresh.
        apply existsb_exists. exists (window_path d win). split; [exact Hin|].
        apply String.eqb_refl.
    + unfold frames_ok in Hframes. rewrite forallb_forall in Hframes.
      apply Forall_forall. intros f Hf. specialize (Hframes f Hf).
      destruct (tiff_page w f) as [p0|] eqn:E; [|discriminate].
      apply andb_true_iff in Hframes as [Hshape Hlen].
      exists p0. split; [exact E|]. split; [now apply shape_eqb_eq | now apply Nat.eqb_eq].
    + reflexivity.
    + assert (Hwritten : Forall (fun win => tiff_page w' (window_path d win) =
                 Ok (averaged_page shp (window_image w shp (last_writer d ws win)))) ws).
      { apply Forall_forall. intros win Hwin. rewrite (Hlast (window_path d win) win).
        replace (existsb (fun win' => String.eqb (window_path d win') (window_path d win)) ws)
          with true; [reflexivity|].
        symmetry. apply existsb_exists. exists win. split; [exact Hwin|].
        apply String.eqb_refl. }
      exists w'. split; [exact Hrun|]. split; [exact Hsaved|]. split; [exact Hwritten|].
      intros Hnodup. apply Forall_forall. intros win Hwin.
      rewrite (proj1 (Forall_forall _ _) Hwritten win Hwin).
      unfold last_writer. now rewrite last_writer_distinct.
Qed.

End Assembly.

(** Scenario B: the four files sorted by angle fall into two windows; the
    loop writes two frames, at 0 and at 10 degrees, and each file holds the
    pixel-wise mean of the two files of its window. *)
Lemma getCTfiles_frames_averages_scenario :
  windows 2 Scenario.sorted_B =
  [ [ (0 # 10, Scenario.ct_path "f1.tiff"); (0 # 10, Scenario.ct_path "f2.tiff") ];
    [ (100 # 10, Scenario.ct_path "f3.tiff"); (100 # 10, Scenario.ct_path "f4.tiff") ] ]%Q /\
  exists w',
    getCTfiles_frames (Some "/SNSlocal2/work.CT-group-100/CT_frame_averaged") 2
      Scenario.sorted_B 0 Scenario.sorted_B [] [] Scenario.world_B =
    Ok (([Scenario.averaged "at_0.0.tiff"; Scenario.averaged "at_10.0.tiff"],
         [0 # 200; 2000 # 200]%Q), w') /\
    saved w' =
    [ (Scenario.averaged "at_0.0.tiff", np.Array [1; 3]%nat [6 # 2; 12 # 2; 6 # 2]%Q);
      (Scenario.averaged "at_10.0.tiff", np.Array [1; 3]%nat [4 # 2; 6 # 2; 3 # 2]%Q) ] /\
    tiff_page w' (Scenario.averaged "at_0.0.tiff") =
    Ok (averaged_page [1; 3]%nat [6 # 2; 12 # 2; 6 # 2]%Q) /\
    tiff_page w' (Scenario.averaged "at_10.0.tiff") =
    Ok (averaged_page [1; 3]%nat [4 # 2; 6 # 2; 3 # 2]%Q).
Proof.
  split; [reflexivity|].
  destruct (getCTfiles_frames_averages "/SNSlocal2/work.CT-group-100/CT_frame_averaged"
              2 [1; 3]%nat Scenario.world_B Scenario.sorted_B eq_refl)
    as [_ (w' & Hrun & Hsaved & _ & Hown)]; [vm_compute; reflexivity ..|].
  assert (Hnames : NoDup (map (window_path "/SNSlocal2/work.CT-group-100/CT_frame_averaged")
                              (windows (Z.to_nat 2) Scenario.sorted_B))).
  { vm_compute. constructor; [|constructor; [intros [] | constructor]].
    intros [E|[]]. discriminate E. }
  specialize (Hown Hnames). rewrite Forall_forall in Hown.
  exists w'. split; [|split; [|split]].
  - rewrite Hrun. vm_compute. reflexivity.
  - rewrite Hsaved. vm_compute. reflexivity.
  - replace (Scenario.averaged "at_0.0.tiff")
      with (window_path "/SNSlocal2/work.CT-group-100/CT_frame_averaged"
              [ (0 # 10, Scenario.ct_path "f1.tiff"); (0 # 10, Scenario.ct_path "f2.tiff") ]%Q)
      by (vm_compute; reflexivity).
    rewrite Hown by (left; reflexivity). vm_compute. reflexivity.
  - replace (Scenario.averaged "at_10.0.tiff")
      with (window_path "/SNSlocal2/work.CT-group-100/CT_frame_averaged"
              [ (100 # 10, Scenario.ct_path "f3.tiff"); (100 # 10, Scenario.ct_path "f4.tiff") ]%Q)
      by (vm_compute; reflexivity).
    rewrite Hown by (right; left; reflexivity). vm_compute. reflexivity.
Defined.

(** C2 as stated fails where two windows have the same mean angle: with
    the four frames at 0.0 degrees and two frames per angle, both entries
    returned name [at_0.0.tiff], and that file holds the mean of the second
    window, [f3] and [f4], not the mean of the first. *)
Lemma getCTfiles_same_angle_written_over :
  exists self' w',
    _getCTfiles (Scenario.self_of "f4.tiff") Scenario.world_D =
    Ok ((self', ([Scenario.averaged "at_0.0.tiff"; Scenario.averaged "at_0.0.tiff"],
                 [0 # 200; 0 # 200]%Q)), w') /\
    tiff_page w' (Scenario.averaged "at_0.0.tiff") =
    Ok (averaged_page [1; 3]%nat [4 # 2; 6 # 2; 3 # 2]%Q) /\
    window_image Scenario.world_D [1; 3]%nat
      [ (0 # 10, Scenario.ct_path "f1.tiff"); (0 # 10, Scenario.ct_path "f2.tiff") ]%Q =
    [6 # 2; 12 # 2; 6 # 2]%Q /\
    window_image Scenario.world_D [1; 3]%nat
      [ (0 # 10, Scenario.ct_path "f3.tiff"); (0 # 10, Scenario.ct_path "f4.tiff") ]%Q =
    [4 # 2; 6 # 2; 3 # 2]%Q /\
    Qeq_bool (6 # 2) (4 # 2) = false.
Proof.
  eexists. eexists. split; [vm_compute; reflexivity|].
  split; [|split; [|split]]; vm_compute; reflexivity.
Qed.

(** Scenario B through the whole method: the list it sorts is the one
    above, and it returns the two averaged frames at 0 and 10 degrees. *)
Lemma getCTfiles_scenario_B :
  match _getCTfiles (Scenario.self_of "f4.tiff") Scenario.world_B with
  | Ok ((_, (output_files, output_angles)), w') =>
      output_files = [Scenario.averaged "at_0.0.tiff"; Scenario.averaged "at_10.0.tiff"] /\
      map Qred output_angles = [0; 10]%Q /\
      saved w' =
      [ (Scenario.averaged "at_0.0.tiff", np.Array [1; 3]%nat [6 # 2; 12 # 2; 6 # 2]%Q);
        (Scenario.averaged "at_10.0.tiff", np.Array [1; 3]%nat [4 # 2; 6 # 2; 3 # 2]%Q) ]
  | Raise _ => False
  end.
Proof. vm_compute. repeat split. Qed.

(** A window whose angles disagree stops the loop with the error of
    line 190. *)
Lemma frames_raise_first_window `{Builtins} (ct_dir : option string) (frame_size : Z)
  (win rest : list (Q * string)) (e : exn) (w : World) :
  1 < frame_size ->
  Z.of_nat (List.length win) = frame_size ->
  check_angles (map fst win) = Raise e ->
  getCTfiles_frames ct_dir frame_size (win ++ rest) 0 (win ++ rest) [] [] w = Raise e.
Proof.
  intros Hfs Hlen Hraise.
  rewrite (frames_window ct_dir frame_size (win ++ rest) Hfs [] win rest [] [] w);
    [| reflexivity | exact Hlen | reflexivity].
  unfold bind at 1, average_window. unfold bind at 1, lift at 1.
  now rewrite Hraise.
Qed.

(** ** [sorted]: the order of line 171 *)

Lemma tuple_leb_total (x y : Q * string) :
  Py.tuple_leb x y = true \/ Py.tuple_leb y x = true.
Proof.
  unfold Py.tuple_leb.
  destruct (Qeq_bool (fst x) (fst y)) eqn:Exy.
  - assert (Eyx : Qeq_bool (fst y) (fst x) = true).
    { apply Qeq_bool_iff. symmetry. now apply Qeq_bool_iff. }
    rewrite Eyx. apply String.leb_total.
  - assert (Eyx : Qeq_bool (fst y) (fst x) = false).
    { destruct (Qeq_bool (fst y) (fst x)) eqn:E; [|reflexivity].
      apply Qeq_bool_iff in E. symmetry in E. apply Qeq_bool_iff in E. congruence. }
    rewrite Eyx.
    destruct (Qlt_le_dec (fst y) (fst x)) as [Hlt|Hle].
    + right. apply Qle_bool_iff. now apply Qlt_le_weak.
    + left. now apply Qle_bool_iff.
Qed.

(** The tuple order puts the smaller angle first. *)
Lemma tuple_leb_angle (x y : Q * string) :
  Py.tuple_leb x y = true -> (fst x <= fst y)%Q.
Proof.
  unfold Py.tuple_leb. destruct (Qeq_bool (fst x) (fst y)) eqn:E.
  - intros _. apply Qeq_bool_iff in E. rewrite E. apply Qle_refl.
  - apply Qle_bool_iff.
Qed.

Lemma insert_perm (x : Q * string) (l : list (Q * string)) :
  Permutation (x :: l) (Py.insert x l).
Proof.
  induction l as [|y l IH]; simpl; [reflexivity|].
  destruct (Py.tuple_leb x y); [reflexivity|].
  rewrite perm_swap. now constructor.
Qed.

Lemma sorted_perm (l : list (Q * string)) : Permutation l (Py.sorted l).
Proof.
  induction l as [|x l IH]; simpl; [reflexivity|].
  rewrite <- insert_perm. now constructor.
Qed.

Lemma insert_sorted (x : Q * string) (l : list (Q * string)) :
  Sorted (fun a b => Py.tuple_leb a b = true) l ->
  Sorted (fun a b => Py.tuple_leb a b = true) (Py.insert x l).
Proof.
  induction 1 as [|y l Hl IH Hy]; simpl; [repeat constructor|].
  destruct (Py.tuple_leb x y) eqn:E.
  - repeat constructor; assumption.
  - constructor; [exact IH|].
    destruct (tuple_leb_total x y) as [Hxy|Hyx]; [congruence|].
    destruct Hy as [|z l Hyz]; simpl; [now constructor|].
    destruct (Py.tuple_leb x z); now constructor.
Qed.

(** [sorted] returns its argument rearranged in ascending tuple order,
    so with ascending angles. *)
Lemma sorted_ascending (l : list (Q * string)) :
  Permutation l (Py.sorted l) /\
  Sorted (fun a b => (fst a <= fst b)%Q) (Py.sorted l).
Proof.
  split; [apply sorted_perm|].
  assert (Hs : Sorted (fun a b => Py.tuple_leb a b = true) (Py.sorted l)).
  { induction l as [|x l IH]; simpl; [constructor | now apply insert_sorted]. }
  induction Hs as [|y s Hs IH Hy]; constructor; [exact IH|].
  destruct Hy as [|z s' Hyz]; constructor. now apply tuple_leb_angle.
Qed.

(** * Further properties of the code *)

(** ** [readTIFMetadata]: which tags become fields *)

Lemma split_length (sep : ascii) (s : string) :
  List.length (Str.split sep s) = S (count_char sep s).
Proof.
  induction s as [|c s IH]; simpl; [reflexivity|].
  destruct (Ascii.eqb c sep); simpl; [now rewrite IH|].
  destruct (Str.split sep s) as [|tok rest]; simpl in *; [discriminate | exact IH].
Qed.

Lemma split_no_sep (sep : ascii) (s : string) :
  count_char sep s = O -> Str.split sep s = [s].
Proof.
  induction s as [|c s IH]; simpl; [reflexivity|].
  destruct (Ascii.eqb c sep); [discriminate|].
  intros Hs. now rewrite IH.
Qed.

Lemma split_name_value (sep : ascii) (name value : string) :
  count_char sep name = O -> count_char sep value = O ->
  Str.split sep (name ++ String sep value) = [name; value].
Proof.
  intros Hname Hvalue. induction name as [|c name IH]; simpl in *.
  - rewrite Ascii.eqb_refl. now rewrite split_no_sep.
  - destruct (Ascii.eqb c sep); [discriminate|]. now rewrite IH.
Qed.

Lemma readTIFMetadata_loop_app (metadata : dict) (a b : list tag_value) :
  readTIFMetadata_loop metadata (a ++ b) =
  readTIFMetadata_loop (readTIFMetadata_loop metadata a) b.
Proof.
  revert metadata. induction a as [|[v|] a IH]; intros metadata; simpl.
  - reflexivity.
  - destruct (Str.split ":" v) as [|name [|value [|? ?]]]; apply IH.
  - apply IH.
Qed.

(** Looking a name up after the loop: the tags read decide, and what was
    in the dictionary before shows through where they say nothing. *)
Lemma dict_get_loop (metadata : dict) (values : list tag_value) (name : string) :
  dict_get (readTIFMetadata_loop metadata values) name =
  match dict_get (readTIFMetadata_loop [] values) name with
  | Ok v => Ok v
  | Raise _ => dict_get metadata name
  end.
Proof.
  revert metadata. induction values as [|[v|] values IH]; intros metadata; simpl.
  - reflexivity.
  - destruct (Str.split ":" v) as [|n [|value [|? ?]]]; try apply IH.
    rewrite IH. rewrite (IH (dict_set n value [])).
    destruct (dict_get (readTIFMetadata_loop [] values) name); [reflexivity|].
    simpl. destruct (String.eqb n name); reflexivity.
  - apply IH.
Qed.

(** X1: a tag [name:value], neither part holding a colon, is read back as
    [metadata[name] = value], whatever tags come before it, provided no
    later tag gives the name again. *)
Theorem readTIFMetadata_reads_tag (w : World) (f1 : string) (p0 : TiffPage)
  (before after : list tag_value) (name value : string) :
  tiff_page w f1 = Ok p0 ->
  tags p0 = (before ++ TagStr (name ++ ":" ++ value) :: after)%list ->
  count_char ":" name = O -> count_char ":" value = O ->
  dict_get (readTIFMetadata_loop [] after) name = Raise (KeyError name) ->
  exists metadata,
    readTIFMetadata f1 w = Ok (metadata, w) /\ dict_get metadata name = Ok value.
Proof.
  intros Hpage Htags Hname Hvalue Hafter.
  unfold readTIFMetadata, bind, tifffile.TiffFile, lift, ret. rewrite Hpage.
  eexists. split; [reflexivity|].
  rewrite Htags, readTIFMetadata_loop_app. cbn [readTIFMetadata_loop].
  change (name ++ ":" ++ value) with (name ++ String ":" value).
  rewrite split_name_value by assumption.
  rewrite dict_get_loop, Hafter. simpl. now rewrite String.eqb_refl.
Qed.

(** X2: a string tag takes part only if its text holds exactly one colon;
    any other tag, a time of day such as [Time:12:30:05] for one, can be
    taken out without changing what is read. *)
Theorem readTIFMetadata_skips_tag (metadata : dict) (before after : list tag_value)
  (v : string) :
  count_char ":" v <> 1%nat ->
  readTIFMetadata_loop metadata (before ++ TagStr v :: after) =
  readTIFMetadata_loop metadata (before ++ after).
Proof.
  intros Hv. rewrite !readTIFMetadata_loop_app. cbn [readTIFMetadata_loop].
  pose proof (split_length ":" v) as Hlen.
  destruct (Str.split ":" v) as [|name [|value [|? ?]]]; try reflexivity.
  simpl in Hlen. congruence.
Qed.

Lemma readTIFMetadata_reads_tag_scenario :
  exists metadata,
    readTIFMetadata (Scenario.ct_path "f3.tiff") Scenario.world_B = Ok (metadata, Scenario.world_B) /\
    dict_get metadata "GroupSize" = Ok "4".
Proof.
  apply (readTIFMetadata_reads_tag Scenario.world_B (Scenario.ct_path "f3.tiff")
           {| tags := [ TagOther; TagStr "RunNo:102"; TagStr "GroupID:100";
                        TagStr "GroupSize:4"; TagStr "FrameSize:2";
                        TagStr "RotationActual:10.0";
                        TagStr "Comment: exposure 30 s: full beam" ];
              shape := [1; 3]%nat; asarray := [1; 1; 1]%Q |}
           [TagOther; TagStr "RunNo:102"; TagStr "GroupID:100"]
           [TagStr "FrameSize:2"; TagStr "RotationActual:10.0";
            TagStr "Comment: exposure 30 s: full beam"]
           "GroupSize" "4"); vm_compute; reflexivity.
Defined.

Lemma readTIFMetadata_skips_tag_scenario :
  readTIFMetadata_loop [] ([TagStr "RunNo:7"] ++ TagStr "Time:12:30:05" :: [TagStr "GroupID:7"]) =
  readTIFMetadata_loop [] ([TagStr "RunNo:7"] ++ [TagStr "GroupID:7"]).
Proof.
  apply (readTIFMetadata_skips_tag [] [TagStr "RunNo:7"] [TagStr "GroupID:7"] "Time:12:30:05").
  vm_compute. discriminate.
Defined.

(** ** Paths under the experiment directory *)

Lemma prefix_app (a b : string) : String.prefix a (a ++ b) = true.
Proof.
  induction a as [|c a IH]; simpl; [now destruct b|].
  destruct (ascii_dec c c); [exact IH | congruence].
Qed.

Lemma slashed_app (a b : list string) : slashed (a ++ b) = slashed a ++ slashed b.
Proof.
  induction a as [|t a IH]; simpl; [reflexivity|].
  now rewrite IH, !append_assoc.
Qed.

Lemma through_IPTS_prefix (tokens : list string) :
  exists rest, tokens = (through_IPTS tokens ++ rest)%list.
Proof.
  induction tokens as [|t l [rest IH]]; simpl; [now exists []|].
  destruct (Str.startswith t "IPTS").
  - now exists l.
  - exists rest. simpl. now rewrite <- IH.
Qed.

Lemma endswith_char_app (a s : string) (c : ascii) :
  s <> "" -> Str.endswith_char (a ++ s) c = Str.endswith_char s c.
Proof.
  intros Hs. induction a as [|x a IH]; [reflexivity|].
  simpl. destruct (a ++ s) eqn:E; [|exact IH].
  destruct a; simpl in E; [congruence | discriminate].
Qed.

Lemma getIPTSdir_slash (f1 : string) :
  exists root, getIPTSdir f1 = root ++ "/".
Proof.
  unfold getIPTSdir. rewrite getIPTSdir_loop_slashed. simpl.
  rewrite slashed_join by apply through_IPTS_nonempty, split_nonempty.
  eexists. reflexivity.
Qed.

(** X3: what [getIPTSdir] returns ends with a slash and, read as a
    string, is the beginning of the path it was given followed by a
    slash: it never invents or reorders a segment. *)
Theorem getIPTSdir_prefix (f1 : string) :
  String.prefix (getIPTSdir f1) (f1 ++ "/") = true /\
  Str.endswith_char (getIPTSdir f1) "/" = true.
Proof.
  split.
  - unfold getIPTSdir. rewrite getIPTSdir_loop_slashed. simpl.
    rewrite <- slashed_split.
    destruct (through_IPTS_prefix (Str.split "/" f1)) as [rest E].
    rewrite E at 2. rewrite slashed_app. apply prefix_app.
  - destruct (getIPTSdir_slash f1) as [root ->].
    now rewrite endswith_char_app by discriminate.
Qed.

Lemma path_join_after_slash (root name : string) :
  Str.startswith name "/" = false ->
  Str.path_join (root ++ "/") name = root ++ "/" ++ name.
Proof.
  intros Hname. unfold Str.path_join. rewrite Hname.
  rewrite endswith_char_app by discriminate. simpl.
  rewrite orb_true_r. apply append_assoc.
Qed.

Lemma path_join_plain (a name : string) (c : ascii) :
  Str.startswith name "/" = false -> c <> "/"%char ->
  forall s, Str.path_join (a ++ s ++ String c "") name = a ++ s ++ String c "" ++ "/" ++ name.
Proof.
  intros Hname Hc s. unfold Str.path_join. rewrite Hname.
  replace (a ++ s ++ String c "") with ((a ++ s) ++ String c "") by apply append_assoc.
  rewrite endswith_char_app by discriminate. simpl.
  apply Ascii.eqb_neq in Hc. rewrite Hc, orb_false_r.
  destruct ((a ++ s) ++ String c "") eqn:E.
  - destruct (a ++ s); discriminate.
  - cbn [String.eqb]. rewrite <- E. now rewrite !append_assoc.
Qed.

(** X4: the calibration directories lie under [raw] in the experiment
    directory of the CT file, with no doubled slash. *)
Theorem calibration_dir_paths (self : CT) :
  calibration_dir self "ob" = getIPTSdir (ct_file_path self) ++ "raw/ob" /\
  calibration_dir self "df" = getIPTSdir (ct_file_path self) ++ "raw/df".
Proof.
  unfold calibration_dir.
  destruct (getIPTSdir_slash (ct_file_path self)) as [root ->].
  rewrite path_join_after_slash by reflexivity.
  change (root ++ "/" ++ "raw") with (root ++ "/ra" ++ String "w" "").
  rewrite !path_join_plain by (reflexivity || discriminate).
  rewrite !append_assoc. split; reflexivity.
Qed.

(** ** [_getCTfiles]: frame sizes below one *)

(** X5: a negative frame size makes the loop pass over every entry, so it
    returns what it started with and writes nothing; a frame size of zero
    stops it at the first entry with a division by zero. *)
Theorem getCTfiles_frames_nonpositive `{Builtins} (ct_dir : option string)
  (frame_size : Z) (lst rest : list (Q * string)) (index : Z)
  (output_files : list string) (output_angles : list Q) (w : World) :
  (frame_size < 0 ->
   getCTfiles_frames ct_dir frame_size lst index rest output_files output_angles w =
   Ok ((output_files, output_angles), w)) /\
  (frame_size = 0 -> rest <> [] ->
   getCTfiles_frames ct_dir frame_size lst index rest output_files output_angles w =
   Raise ZeroDivisionError).
Proof.
  split.
  - intros Hneg. revert index. induction rest as [|[angle path] rest IH]; intros index.
    + reflexivity.
    + cbn [getCTfiles_frames].
      replace (frame_size =? 1) with false by (symmetry; apply Z.eqb_neq; lia).
      unfold bind at 1, lift, Py.mod_.
      replace (frame_size =? 0) with false by (symmetry; apply Z.eqb_neq; lia).
      replace (index mod frame_size =? frame_size - 1) with false.
      * apply IH.
      * symmetry. apply Z.eqb_neq.
        pose proof (Z.mod_neg_bound index frame_size Hneg). lia.
  - intros -> Hrest. destruct rest as [|[angle path] rest]; [congruence | reflexivity].
Qed.

Lemma getCTfiles_frames_nonpositive_scenario :
  getCTfiles_frames (Some "/tmp/work") (-2) Scenario.sorted_B 0 Scenario.sorted_B [] []
    Scenario.world_B = Ok (([], []), Scenario.world_B) /\
  getCTfiles_frames (Some "/tmp/work") 0 Scenario.sorted_B 0 Scenario.sorted_B [] []
    Scenario.world_B = Raise ZeroDivisionError.
Proof.
  split.
  - apply (getCTfiles_frames_nonpositive (Some "/tmp/work") (-2) Scenario.sorted_B
             Scenario.sorted_B 0 [] [] Scenario.world_B). reflexivity.
  - apply (getCTfiles_frames_nonpositive (Some "/tmp/work") 0 Scenario.sorted_B
             Scenario.sorted_B 0 [] [] Scenario.world_B); [reflexivity | discriminate].
Defined.

(** Scenario B triggered by its second file: the method returns, and the
    time it has stored is the second file's. *)
Lemma getCTfiles_earliest_is_trigger_scenario :
  exists self' out w' t,
    _getCTfiles (Scenario.self_of "f2.tiff") Scenario.world_B = Ok ((self', out), w') /\
    os_getmtime Scenario.world_B (ct_file_path (Scenario.self_of "f2.tiff")) = Ok t /\
    earliest_ct_mtime self' = Some t.
Proof.
  destruct (_getCTfiles (Scenario.self_of "f2.tiff") Scenario.world_B)
    as [[[self' out] w']|] eqn:E; [|vm_compute in E; discriminate].
  destruct (getCTfiles_earliest_is_trigger (Scenario.self_of "f2.tiff") self'
              Scenario.world_B w' out E) as (t & Ht & Hearliest).
  exists self', out, w', t. split; [reflexivity|]. split; assumption.
Defined.

(** Scenario A, where every file has [FrameSize] 1. *)
Lemma getCTfiles_single_frame_fails_scenario :
  is_ok (_getCTfiles (Scenario.self_of "f1.tiff") Scenario.world_A) = false.
Proof.
  apply getCTfiles_single_frame_fails.
  intros metadata w' E.
  assert (Eread : readTIFMetadata (ct_file_path (Scenario.self_of "f1.tiff")) Scenario.world_A =
                  Ok ([ ("RotationActual", "10.0"); ("FrameSize", "1"); ("GroupSize", "4");
                        ("GroupID", "100"); ("RunNo", "100") ], Scenario.world_A))
    by (vm_compute; reflexivity).
  rewrite Eread in E. injection E as <- _. reflexivity.
Defined.

(** ** [_find_OB_DF_files] only reads *)

Lemma find_OB_DF_loop_reads (self : CT) (ob_dir : string) (entries out out' : list string)
  (w w' : World) :
  find_OB_DF_loop self ob_dir entries out w = Ok (out', w') -> w' = w.
Proof.
  revert out. induction entries as [|e entries IH]; intros out.
  - simpl. unfold ret. now intros E; inversion E.
  - cbn [find_OB_DF_loop]. unfold bind at 1, os.getmtime, lift at 1.
    destruct (os_getmtime w _) as [mt|]; [|discriminate].
    unfold bind at 1, lift at 1.
    destruct (Py.attribute _ _) as [earliest|]; [|discriminate].
    destruct (Qgt_bool mt (earliest - day)); apply IH.
Qed.

(** X11: a calibration lookup that returns has created, linked and saved
    nothing, and left every file as it was; at most it has issued its one
    warning. *)
Theorem find_OB_DF_files_reads (self : CT) (type subdir : string) (w w' : World)
  (out : list string) :
  _find_OB_DF_files self type subdir w = Ok (out, w') ->
  saved w' = saved w /\ linked w' = linked w /\ made w' = made w /\
  (forall p, tiff_page w' p = tiff_page w p /\ os_exists w' p = os_exists w p) /\
  (warned w' = warned w \/
   warned w' = (warned w ++ [("Too few " ++ type ++ " files")%string])%list).
Proof.
  unfold _find_OB_DF_files. unfold bind at 1, os.listdir, lift at 1.
  destruct (os_listdir w _) as [entries|]; [|discriminate].
  unfold bind at 1.
  destruct (find_OB_DF_loop _ _ _ _ w) as [[out1 w1]|] eqn:Eloop; [|discriminate].
  apply find_OB_DF_loop_reads in Eloop. subst w1.
  destruct (Nat.eqb (List.length out1) 0); [discriminate|].
  unfold bind at 1.
  destruct (Nat.ltb (List.length out1) 5).
  - unfold warnings.warn, ret. intros E. inversion E. subst. simpl. auto 10.
  - unfold ret. intros E. inversion E. subst. auto 10.
Qed.

Lemma find_OB_DF_files_reads_scenario :
  exists out w',
    _find_OB_DF_files (Scenario.self_at 200030) "Dark field" "df" Scenario.world_B =
    Ok (out, w') /\
    saved w' = [] /\ linked w' = [] /\ made w' = [].
Proof.
  destruct (_find_OB_DF_files (Scenario.self_at 200030) "Dark field" "df" Scenario.world_B)
    as [[out w']|] eqn:E; [|vm_compute in E; discriminate].
  destruct (find_OB_DF_files_reads _ _ _ _ _ _ E) as (Hsaved & Hlinked & Hmade & _).
  exists out, w'. split; [reflexivity|].
  split; [exact Hsaved | split; [exact Hlinked | exact Hmade]].
Defined.

(** ** [_getCTfiles]: which files the scan of the directory takes *)

Section ScanMembers.

Context `{Builtins}.

Variables (f1 dir : string) (groupID : Z) (w : World).

(** One turn of the loop of lines 149-163. *)
Lemma getCTfiles_scan_cons (entry : string) (entries files : list string)
  (angles mtimes : list Q) :
  getCTfiles_scan f1 dir groupID (entry :: entries) files angles mtimes w =
  let p := Str.path_join dir entry in
  let skip := getCTfiles_scan f1 dir groupID entries files angles mtimes w in
  if os_isdir w p then skip
  else match tiff_page w p with
       | Ok p0 =>
           match int_field (readTIFMetadata_loop [] (tags p0)) "GroupID" with
           | Ok groupID1 =>
               if groupID1 =? groupID then
                 match float_field (readTIFMetadata_loop [] (tags p0)) "RotationActual" with
                 | Ok angle =>
                     match os_getmtime w f1 with
                     | Ok mt =>
                         getCTfiles_scan f1 dir groupID entries
                           (files ++ [p]) (angles ++ [angle]) (mtimes ++ [mt]) w
                     | Raise e => Raise e
                     end
                 | Raise e => Raise e
                 end
               else skip
           | Raise e => Raise e
           end
       | Raise (ValueError msg) =>
           if String.eqb msg "not a valid TIFF file" then skip
           else Raise (ValueError msg)
       | Raise e => Raise e
       end.
Proof.
  cbv zeta. cbn [getCTfiles_scan]. unfold bind at 1, os.isdir, reads.
  destruct (os_isdir w (Str.path_join dir entry)); [reflexivity|].
  unfold bind at 1. rewrite try_read_cases.
  destruct (tiff_page w (Str.path_join dir entry)) as [p0|e].
  - unfold bind at 1, lift at 1.
    destruct (int_field _ "GroupID") as [groupID1|]; [|reflexivity].
    destruct (groupID1 =? groupID); [|reflexivity]. cbn [negb].
    unfold bind at 1, lift at 1.
    destruct (float_field _ "RotationActual") as [angle|]; [|reflexivity].
    unfold bind at 1, os.getmtime, lift at 1.
    destruct (os_getmtime w f1); reflexivity.
  - destruct e; try reflexivity.
    destruct (String.eqb msg "not a valid TIFF file"); reflexivity.
Qed.

Lemma getCTfiles_scan_members (all entries files : list string) (angles mtimes : list Q)
  (files' : list string) (angles' mtimes' : list Q) (w' : World) :
  incl entries all ->
  getCTfiles_scan f1 dir groupID entries files angles mtimes w =
  Ok ((files', angles', mtimes'), w') ->
  Forall2 (group_member w dir groupID all) files angles ->
  Forall2 (group_member w dir groupID all) files' angles' /\
  (forall p, In p files -> In p files') /\
  (forall entry p0,
      In entry entries ->
      os_isdir w (Str.path_join dir entry) = false ->
      tiff_page w (Str.path_join dir entry) = Ok p0 ->
      int_field (readTIFMetadata_loop [] (tags p0)) "GroupID" = Ok groupID ->
      In (Str.path_join dir entry) files').
Proof.
  revert files angles mtimes.
  induction entries as [|entry entries IH]; intros files angles mtimes Hincl Hscan Hacc.
  - simpl in Hscan. unfold ret in Hscan. inversion Hscan; subst.
    repeat split; auto. intros entry p0 [].
  - assert (Hincl' : incl entries all) by (intros e He; apply Hincl; now right).
    rewrite getCTfiles_scan_cons in Hscan. cbv zeta in Hscan.
    assert (Hskip :
              getCTfiles_scan f1 dir groupID entries files angles mtimes w =
              Ok ((files', angles', mtimes'), w') ->
              (forall p0, os_isdir w (Str.path_join dir entry) = false ->
                          tiff_page w (Str.path_join dir entry) = Ok p0 ->
                          int_field (readTIFMetadata_loop [] (tags p0)) "GroupID"
                          <> Ok groupID) ->
              Forall2 (group_member w dir groupID all) files' angles' /\
              (forall p, In p files -> In p files') /\
              (forall entry0 p0,
                  In entry0 (entry :: entries) ->
                  os_isdir w (Str.path_join dir entry0) = false ->
                  tiff_page w (Str.path_join dir entry0) = Ok p0 ->
                  int_field (readTIFMetadata_loop [] (tags p0)) "GroupID" = Ok groupID ->
                  In (Str.path_join dir entry0) files')).
    { intros Hrest Hnot.
      destruct (IH files angles mtimes Hincl' Hrest Hacc) as (Hall & Hkeep & Hfound).
      repeat split; auto.
      intros entry0 p0 [<-|Hin] Hdir Hpage Hgroup.
      - now destruct (Hnot p0 Hdir Hpage).
      - eapply Hfound; eauto. }
    destruct (os_isdir w (Str.path_join dir entry)) eqn:Edir.
    { apply Hskip; [exact Hscan | discriminate]. }
    destruct (tiff_page w (Str.path_join dir entry)) as [p0|e] eqn:Epage.
    + destruct (int_field _ "GroupID") as [groupID1|] eqn:Egroup; [|discriminate].
      destruct (groupID1 =? groupID) eqn:Eeq.
      * apply Z.eqb_eq in Eeq. subst groupID1.
        destruct (float_field _ "RotationActual") as [angle|] eqn:Eangle; [|discriminate].
        destruct (os_getmtime w f1) as [mt|]; [|discriminate].
        destruct (IH _ _ _ Hincl' Hscan) as (Hall & Hkeep & Hfound).
        { apply Forall2_app; [exact Hacc|]. constructor; [|constructor].
          exists entry, p0. repeat split; auto. apply Hincl. now left. }
        repeat split; auto.
        -- intros p Hp. apply Hkeep, in_or_app. now left.
        -- intros entry0 q0 [<-|Hin] Hdir Hpage Hgroup.
           ++ apply Hkeep, in_or_app. right. now left.
           ++ eapply Hfound; eauto.
      * apply Hskip; [exact Hscan|].
        intros q0 _ Hq0 Hgroup. inversion Hq0; subst q0.
        rewrite Egroup in Hgroup. inversion Hgroup; subst.
        rewrite Z.eqb_refl in Eeq. discriminate.
    + destruct e; try discriminate.
      destruct (String.eqb msg "not a valid TIFF file"); [|discriminate].
      apply Hskip; [exact Hscan | discriminate].
Qed.

(** X8: when the scan of the directory returns, the files it has taken
    are files of the group, each an entry of the directory that is no
    directory itself, paired with its own angle; and no file of the group
    is left out. *)
Theorem getCTfiles_scan_group (entries files : list string) (angles mtimes : list Q)
  (w' : World) :
  getCTfiles_scan f1 dir groupID entries [] [] [] w = Ok ((files, angles, mtimes), w') ->
  Forall2 (group_member w dir groupID entries) files angles /\
  (forall entry p0,
      In entry entries ->
      os_isdir w (Str.path_join dir entry) = false ->
      tiff_page w (Str.path_join dir entry) = Ok p0 ->
      int_field (readTIFMetadata_loop [] (tags p0)) "GroupID" = Ok groupID ->
      In (Str.path_join dir entry) files).
Proof.
  intros Hscan.
  destruct (getCTfiles_scan_members entries entries [] [] [] files angles mtimes w'
              (incl_refl _) Hscan (Forall2_nil _)) as (Hall & _ & Hfound).
  split; assumption.
Qed.

(** X9: the scan returns only if every entry that is no directory is
    either refused by the TIFF reader as no TIFF, or is a TIFF whose
    [GroupID] reads as an integer and, when it is the group's, whose
    [RotationActual] reads as a number.  One stray TIFF without these
    tags stops the assembly. *)
Theorem getCTfiles_scan_needs_tags (entries files : list string) (angles mtimes : list Q)
  (r : list string * list Q * list Q) (w' : World) :
  getCTfiles_scan f1 dir groupID entries files angles mtimes w = Ok (r, w') ->
  Forall (fun entry =>
            os_isdir w (Str.path_join dir entry) = true \/
            tiff_page w (Str.path_join dir entry) = Raise (ValueError "not a valid TIFF file") \/
            exists p0 groupID1,
              tiff_page w (Str.path_join dir entry) = Ok p0 /\
              int_field (readTIFMetadata_loop [] (tags p0)) "GroupID" = Ok groupID1 /\
              (groupID1 = groupID ->
               is_ok (float_field (readTIFMetadata_loop [] (tags p0)) "RotationActual") = true))
         entries.
Proof.
  revert files angles mtimes.
  induction entries as [|entry entries IH]; intros files angles mtimes Hscan;
    [constructor|].
  rewrite getCTfiles_scan_cons in Hscan. cbv zeta in Hscan.
  destruct (os_isdir w (Str.path_join dir entry)) eqn:Edir.
  { constructor; [now left | eapply IH; eauto]. }
  destruct (tiff_page w (Str.path_join dir entry)) as [p0|e] eqn:Epage.
  - destruct (int_field _ "GroupID") as [groupID1|] eqn:Egroup; [|discriminate].
    destruct (groupID1 =? groupID) eqn:Eeq.
    + destruct (float_field _ "RotationActual") as [angle|] eqn:Eangle; [|discriminate].
      destruct (os_getmtime w f1) as [mt|]; [|discriminate].
      constructor; [|eapply IH; eauto].
      right. right. exists p0, groupID1. rewrite Eangle. auto.
    + constructor; [|eapply IH; eauto].
      right. right. exists p0, groupID1. repeat split; auto.
      intros ->. rewrite Z.eqb_refl in Eeq. discriminate.
  - destruct e; try discriminate.
    destruct (String.eqb msg "not a valid TIFF file") eqn:Emsg; [|discriminate].
    apply String.eqb_eq in Emsg. subst msg.
    constructor; [now right; left | eapply IH; eauto].
Qed.

End ScanMembers.

(** ** [_getCTfiles]: the angles it returns *)

Lemma windows_length {A} (n : nat) (l : list A) :
  (0 < n)%nat -> List.length (windows n l) = (List.length l / n)%nat.
Proof.
  intros Hn. destruct (windows_partition n l Hn) as (tail & Hlst & Hfull & Htail).
  assert (Hcat : List.length (List.concat (windows n l)) = (n * List.length (windows n l))%nat).
  { clear Hlst. induction Hfull as [|win ws Hwin _ IH]; simpl; [lia|].
    rewrite length_app, IH, Hwin. lia. }
  apply (Nat.div_unique _ _ _ (List.length tail)); [exact Htail|].
  rewrite <- Hcat, <- length_app. now rewrite <- Hlst.
Qed.

Lemma windows_nonempty {A} (n : nat) (l : list A) :
  (0 < n)%nat -> Forall (fun win => win <> []) (windows n l).
Proof.
  intros Hn. destruct (windows_partition n l Hn) as (tail & _ & Hfull & _).
  eapply Forall_impl; [|exact Hfull]. intros win Hwin ->. simpl in Hwin. lia.
Qed.

Section Means.

Local Open Scope Q_scope.

Lemma fold_Qplus_le (l : list Q) (acc c : Q) :
  Forall (fun a => a <= c) l ->
  fold_left Qplus l acc <= acc + inject_Z (Z.of_nat (List.length l)) * c.
Proof.
  intros Hall. revert acc. induction Hall as [|x l Hx _ IH]; intros acc.
  - cbn [fold_left List.length Z.of_nat]. unfold inject_Z. lra.
  - cbn [fold_left List.length]. eapply Qle_trans; [apply IH|].
    rewrite Nat2Z.inj_succ, <- Z.add_1_r, inject_Z_plus.
    set (n := inject_Z (Z.of_nat (List.length l))).
    assert (E : (n + inject_Z 1) * c == n * c + c) by (unfold inject_Z; ring).
    rewrite E. lra.
Qed.

Lemma fold_Qplus_ge (l : list Q) (acc c : Q) :
  Forall (fun a => c <= a) l ->
  acc + inject_Z (Z.of_nat (List.length l)) * c <= fold_left Qplus l acc.
Proof.
  intros Hall. revert acc. induction Hall as [|x l Hx _ IH]; intros acc.
  - cbn [fold_left List.length Z.of_nat]. unfold inject_Z. lra.
  - cbn [fold_left List.length]. eapply Qle_trans; [|apply IH].
    rewrite Nat2Z.inj_succ, <- Z.add_1_r, inject_Z_plus.
    set (n := inject_Z (Z.of_nat (List.length l))).
    assert (E : (n + inject_Z 1) * c == n * c + c) by (unfold inject_Z; ring).
    rewrite E. lra.
Qed.

Lemma length_pos_Q {A} (l : list A) :
  l <> [] -> 0 < inject_Z (Z.of_nat (List.length l)).
Proof.
  intros Hl. destruct l; [congruence|].
  change 0 with (inject_Z 0). rewrite <- Zlt_Qlt. simpl List.length. lia.
Qed.

(** The mean of numbers lies between any bounds of theirs. *)
Lemma average_le (l : list Q) (c : Q) :
  l <> [] -> Forall (fun a => a <= c) l -> np.average l <= c.
Proof.
  intros Hl Hall. unfold np.average.
  apply Qle_shift_div_r; [now apply length_pos_Q|].
  pose proof (fold_Qplus_le l 0 c Hall). lra.
Qed.

Lemma average_ge (l : list Q) (c : Q) :
  l <> [] -> Forall (fun a => c <= a) l -> c <= np.average l.
Proof.
  intros Hl Hall. unfold np.average.
  apply Qle_shift_div_l; [now apply length_pos_Q|].
  pose proof (fold_Qplus_ge l 0 c Hall). lra.
Qed.

Lemma StronglySorted_app_inv {A} (R : A -> A -> Prop) (a b : list A) :
  StronglySorted R (a ++ b) ->
  StronglySorted R a /\ StronglySorted R b /\
  forall x y, In x a -> In y b -> R x y.
Proof.
  induction a as [|h a IH]; simpl; intros Hs.
  - repeat split; [constructor | exact Hs | intros x y []].
  - apply StronglySorted_inv in Hs as [Hs Hh].
    destruct (IH Hs) as (Ha & Hb & Hab). rewrite Forall_forall in Hh.
    repeat split; [| exact Hb |].
    + constructor; [exact Ha|]. apply Forall_forall. intros x Hx.
      apply Hh, in_or_app. now left.
    + intros x y [<-|Hx] Hy; [apply Hh, in_or_app; now right | now apply Hab].
Qed.

(** Windows cut from a list in ascending order of angle have ascending
    mean angles. *)
Lemma window_angles_sorted (ws : list (list (Q * string))) :
  StronglySorted (fun a b => fst a <= fst b) (List.concat ws) ->
  Forall (fun win => win <> []) ws ->
  Sorted Qle (map window_angle ws).
Proof.
  induction ws as [|w1 ws IH]; intros Hs Hne; [constructor|].
  apply Forall_cons_iff in Hne as [Hw1 Hne]. cbn [List.concat] in Hs.
  apply StronglySorted_app_inv in Hs as (Hs1 & Hs' & Hcross).
  cbn [map]. constructor; [now apply IH|].
  destruct ws as [|w2 ws]; [constructor|]. cbn [map]. constructor.
  apply Forall_cons_iff in Hne as [Hw2 _].
  destruct w2 as [|c w2]; [congruence|].
  cbn [List.concat] in Hs'. apply StronglySorted_app_inv in Hs' as (Hs2 & _ & _).
  apply StronglySorted_inv in Hs2 as [_ Hc]. rewrite Forall_forall in Hc.
  apply Qle_trans with (fst c); unfold window_angle.
  - apply average_le; [now destruct w1|].
    apply Forall_map, Forall_forall. intros x Hx.
    apply Hcross; [exact Hx|]. cbn [List.concat]. now left.
  - apply average_ge; [discriminate|].
    apply Forall_map, Forall_forall. intros y [<-|Hy]; [apply Qle_refl | now apply Hc].
Qed.

End Means.

Section Angles2.

Context `{Builtins}.

Lemma average_window_angle (ct_dir : option string) (frame_size : Z)
  (win : list (Q * string)) (w w' : World) (out : string * Q) :
  average_window ct_dir frame_size win w = Ok (out, w') -> snd out = window_angle win.
Proof.
  unfold average_window. unfold bind at 1, lift at 1.
  destruct (check_angles (map fst win)) as [a|] eqn:Ea; [|discriminate].
  assert (a = window_angle win) as ->.
  { unfold check_angles in Ea. destruct (Py.assert _ _); inversion Ea. reflexivity. }
  unfold bind at 1. destruct (sum_frames _ _ w) as [[data w1]|]; [|discriminate].
  unfold bind at 1, lift at 1. destruct (Py.local _ ct_dir) as [d|]; [|discriminate].
  unfold bind, tifffile.imsave, ret. intros E. inversion E. reflexivity.
Qed.

Lemma average_windows_angles (ct_dir : option string) (frame_size : Z)
  (ws : list (list (Q * string))) (output_files files : list string)
  (output_angles angles : list Q) (w w' : World) :
  average_windows ct_dir frame_size ws output_files output_angles w =
  Ok ((files, angles), w') ->
  angles = (output_angles ++ map window_angle ws)%list /\
  List.length files = (List.length output_files + List.length ws)%nat.
Proof.
  revert output_files output_angles w.
  induction ws as [|win ws IH]; intros output_files output_angles w.
  - simpl. unfold ret. intros E. inversion E. rewrite app_nil_r. split; [reflexivity | lia].
  - cbn [average_windows]. unfold bind at 1.
    destruct (average_window ct_dir frame_size win w) as [[out w1]|] eqn:Ewin; [|discriminate].
    apply average_window_angle in Ewin. intros E. apply IH in E as [-> ->].
    rewrite Ewin, <- app_assoc, length_app. cbn [map List.length app]. split; [reflexivity | lia].
Qed.

(** X10: with [frame_size > 1], whenever the loop over the sorted list
    returns, it returns one file and one angle for each full window, as
    many as the whole number of times [frame_size] goes into the number of
    entries; the angles are the means of the windows, in ascending order. *)
Theorem getCTfiles_frames_angles (ct_dir : option string) (frame_size : Z)
  (l : list (Q * string)) (files : list string) (angles : list Q) (w w' : World) :
  1 < frame_size ->
  getCTfiles_frames ct_dir frame_size (Py.sorted l) 0 (Py.sorted l) [] [] w =
  Ok ((files, angles), w') ->
  angles = map window_angle (windows (Z.to_nat frame_size) (Py.sorted l)) /\
  List.length angles = (List.length l / Z.to_nat frame_size)%nat /\
  List.length files = List.length angles /\
  Sorted Qle angles.
Proof.
  intros Hfs Hrun.
  destruct (windows_partition (Z.to_nat frame_size) (Py.sorted l))
    as (tail & Hlst & Hfull & Htail); [lia|].
  assert (Hloop := frames_as_windows ct_dir frame_size (Py.sorted l) Hfs
                     (windows (Z.to_nat frame_size) (Py.sorted l)) tail [] [] [] w).
  cbn [List.length Z.of_nat app] in Hloop. rewrite <- Hlst in Hloop.
  rewrite Hloop in Hrun; [| reflexivity | | lia | reflexivity].
  2:{ eapply Forall_impl; [|exact Hfull]. intros win Hwin. cbv beta in Hwin. lia. }
  apply average_windows_angles in Hrun as [-> Hfiles]. cbn [app List.length] in *.
  destruct (sorted_ascending l) as [Hperm Hsorted].
  split; [reflexivity|]. split; [|split].
  - rewrite length_map, windows_length by lia.
    now rewrite (Permutation_length Hperm).
  - now rewrite length_map.
  - apply window_angles_sorted; [|apply windows_nonempty; lia].
    apply Sorted_StronglySorted in Hsorted.
    + rewrite Hlst in Hsorted. now apply StronglySorted_app_inv in Hsorted.
    + intros x y z. apply Qle_trans.
Qed.

End Angles2.

(** Scenario B: the scan takes the four radiographs, with their angles,
    and passes over the text file and the subdirectory. *)
Lemma getCTfiles_scan_group_scenario :
  Forall2 (group_member Scenario.world_B "/SNS/VENUS/IPTS-1/raw/ct" 100 Scenario.ct_entries)
          (map Scenario.ct_path ["f1.tiff"; "f2.tiff"; "f3.tiff"; "f4.tiff"])
          [0 # 10; 0 # 10; 100 # 10; 100 # 10]%Q.
Proof.
  apply (getCTfiles_scan_group (Scenario.ct_path "f4.tiff") "/SNS/VENUS/IPTS-1/raw/ct" 100
           Scenario.world_B Scenario.ct_entries
           (map Scenario.ct_path ["f1.tiff"; "f2.tiff"; "f3.tiff"; "f4.tiff"])
           [0 # 10; 0 # 10; 100 # 10; 100 # 10]%Q
           [200030; 200030; 200030; 200030]%Q Scenario.world_B).
  vm_compute. reflexivity.
Defined.

Lemma getCTfiles_scan_needs_tags_scenario :
  Forall (fun entry =>
            os_isdir Scenario.world_B (Str.path_join "/SNS/VENUS/IPTS-1/raw/ct" entry) = true \/
            tiff_page Scenario.world_B (Str.path_join "/SNS/VENUS/IPTS-1/raw/ct" entry)
            = Raise (ValueError "not a valid TIFF file") \/
            exists p0 groupID1,
              tiff_page Scenario.world_B (Str.path_join "/SNS/VENUS/IPTS-1/raw/ct" entry) = Ok p0 /\
              int_field (readTIFMetadata_loop [] (tags p0)) "GroupID" = Ok groupID1 /\
              (groupID1 = 100 ->
               is_ok (float_field (readTIFMetadata_loop [] (tags p0)) "RotationActual") = true))
         Scenario.ct_entries.
Proof.
  apply (getCTfiles_scan_needs_tags (Scenario.ct_path "f4.tiff") "/SNS/VENUS/IPTS-1/raw/ct" 100
           Scenario.world_B Scenario.ct_entries [] [] []
           (map Scenario.ct_path ["f1.tiff"; "f2.tiff"; "f3.tiff"; "f4.tiff"],
            [0 # 10; 0 # 10; 100 # 10; 100 # 10]%Q,
            [200030; 200030; 200030; 200030]%Q) Scenario.world_B).
  vm_compute. reflexivity.
Defined.

(** Scenario B, the four files listed out of order: two angles come
    back, in ascending order. *)
Lemma getCTfiles_frames_angles_scenario :
  exists files angles w',
    getCTfiles_frames (Some "/SNSlocal2/work.CT-group-100/CT_frame_averaged") 2
      (Py.sorted [ (100 # 10, Scenario.ct_path "f3.tiff"); (0 # 10, Scenario.ct_path "f1.tiff");
                   (100 # 10, Scenario.ct_path "f4.tiff"); (0 # 10, Scenario.ct_path "f2.tiff") ]%Q)
      0
      (Py.sorted [ (100 # 10, Scenario.ct_path "f3.tiff"); (0 # 10, Scenario.ct_path "f1.tiff");
                   (100 # 10, Scenario.ct_path "f4.tiff"); (0 # 10, Scenario.ct_path "f2.tiff") ]%Q)
      [] [] Scenario.world_B = Ok ((files, angles), w') /\
    List.length angles = (4 / 2)%nat /\ Sorted Qle angles.
Proof.
  destruct (getCTfiles_frames (Some "/SNSlocal2/work.CT-group-100/CT_frame_averaged") 2
      (Py.sorted [ (100 # 10, Scenario.ct_path "f3.tiff"); (0 # 10, Scenario.ct_path "f1.tiff");
                   (100 # 10, Scenario.ct_path "f4.tiff"); (0 # 10, Scenario.ct_path "f2.tiff") ]%Q)
      0
      (Py.sorted [ (100 # 10, Scenario.ct_path "f3.tiff"); (0 # 10, Scenario.ct_path "f1.tiff");
                   (100 # 10, Scenario.ct_path "f4.tiff"); (0 # 10, Scenario.ct_path "f2.tiff") ]%Q)
      [] [] Scenario.world_B) as [[[files angles] w']|] eqn:E;
    [|vm_compute in E; discriminate].
  exists files, angles, w'. split; [reflexivity|].
  destruct (getCTfiles_frames_angles _ 2 _ _ _ _ _ eq_refl E) as (_ & Hlen & _ & Hsorted).
  split; assumption.
Defined.

(** ** [sniff]: what is handed to the reconstruction *)

Lemma find_OB_DF_files_nonempty (self : CT) (type subdir : string) (w w' : World)
  (out : list string) :
  _find_OB_DF_files self type subdir w = Ok (out, w') -> out <> [].
Proof.
  unfold _find_OB_DF_files. unfold bind at 1, os.listdir, lift at 1.
  destruct (os_listdir w _) as [entries|]; [|discriminate].
  unfold bind at 1.
  destruct (find_OB_DF_loop _ _ _ _ w) as [[out1 w1]|]; [|discriminate].
  destruct out1 as [|p out1]; [discriminate|].
  cbn [List.length Nat.eqb]. unfold bind at 1.
  destruct (Nat.ltb _ 5); unfold warnings.warn, ret; intros E; inversion E; discriminate.
Qed.

Section Sniff.

Context `{Builtins}.

(** Whenever [_getCTfiles] returns, it has set the earliest time and the
    directory of the averaged frames, and nothing else, on the object. *)
Lemma getCTfiles_self (self self' : CT) (w w' : World) (out : list string * list Q) :
  _getCTfiles self w = Ok ((self', out), w') ->
  exists t,
    self' = set_ct_dir (set_earliest_ct_mtime self t)
                       (Str.path_join (workdir self) "CT_frame_averaged").
Proof.
  unfold _getCTfiles. unfold bind at 1.
  destruct (readTIFMetadata _ w) as [[metadata w1]|] eqn:Emeta; [|discriminate].
  apply readTIFMetadata_reads in Emeta. subst w1.
  unfold bind at 1, lift at 1.
  destruct (int_field metadata "GroupID") as [groupID|]; [|discriminate].
  unfold bind at 1, os.listdir, lift at 1.
  destruct (os_listdir w _) as [entries|]; [|discriminate].
  unfold bind at 1.
  destruct (getCTfiles_scan _ _ _ _ _ _ _ w) as [[[[files angles] mtimes] w1]|] eqn:Escan;
    [|discriminate].
  apply getCTfiles_scan_inv in Escan
    as (-> & files' & angles' & mtimes' & E & Hfa & Ham & _).
  simpl in E. inversion E; subst; clear E.
  unfold bind at 1, lift at 1.
  destruct mtimes' as [|mt mtimes']; [discriminate|].
  cbn [np.min]. unfold bind at 1, lift at 1.
  destruct (int_field metadata "FrameSize") as [frame_size|]; [|discriminate].
  unfold bind at 1.
  destruct (negb (frame_size =? 1)) eqn:Efs.
  - unfold bind at 1, os.exists_, reads.
    destruct (negb (os_exists w _)).
    + unfold bind at 1, os.makedirs.
      destruct (os_exists w _); [discriminate|].
      unfold ret at 1. unfold bind at 1.
      destruct (getCTfiles_frames _ _ _ _ _ _ _ _) as [[out1 w1]|]; [|discriminate].
      unfold ret. intros E. inversion E; subst. eexists. reflexivity.
    + unfold bind at 1, ret at 1, ret at 1. unfold bind at 1.
      destruct (getCTfiles_frames _ _ _ _ _ _ _ _) as [[out1 w1]|]; [|discriminate].
      unfold ret. intros E. inversion E; subst. eexists. reflexivity.
  - apply negb_false_iff, Z.eqb_eq in Efs. subst frame_size.
    unfold ret at 1. unfold bind at 1.
    rewrite getCTfiles_frames_unbound; [discriminate|].
    apply sorted_nonempty.
    destruct angles' as [|a angles']; [discriminate|].
    destruct files' as [|f files']; discriminate.
Qed.

(** X15: whatever [sniff] returns holds at least one open-beam file and,
    unless dark fields are skipped, at least one dark-field file; the CT
    series is the pattern [at_%s.tiff] in the directory
    [CT_frame_averaged] of the working directory, and the object keeps
    its file, its working directory and its choice about dark fields. *)
Theorem sniff_returns (self self' : CT) (s : Sniffed) (w w' : World) :
  sniff self w = Ok ((self', s), w') ->
  obs s <> [] /\
  (if skip_df self then dfs s = None else exists l, dfs s = Some l /\ l <> []) /\
  ct_pattern s =
  Str.path_join (Str.path_join (workdir self) "CT_frame_averaged") "at_%s.tiff" /\
  ct_file_path self' = ct_file_path self /\ workdir self' = workdir self /\
  skip_df self' = skip_df self.
Proof.
  unfold sniff. unfold bind at 1.
  destruct (_getCTfiles self w) as [[[self1 [ct_files angles1]] w1]|] eqn:Eget; [|discriminate].
  apply getCTfiles_self in Eget as [t ->].
  cbn [ct_dir set_ct_dir Py.attribute]. unfold bind at 1, lift at 1. unfold bind at 1.
  destruct (_find_OB_DF_files _ "Open Beam" "ob" w1) as [[ob_files w2]|] eqn:Eob; [|discriminate].
  apply find_OB_DF_files_nonempty in Eob.
  cbn [skip_df set_ct_dir set_earliest_ct_mtime]. unfold bind at 1.
  destruct (skip_df self) eqn:Eskip; cbn [negb].
  - unfold ret. intros E. inversion E; subst. cbn. repeat split; auto.
  - unfold bind at 1.
    destruct (_find_OB_DF_files _ "Dark field" "df" w2) as [[df_files w3]|] eqn:Edf;
      [|discriminate].
    apply find_OB_DF_files_nonempty in Edf.
    unfold ret. intros E. inversion E; subst. cbn.
    repeat split; auto. now exists df_files.
Qed.

End Sniff.

(** Scenario B: five open-beam files and one directory, four dark-field
    files. *)
Lemma sniff_returns_scenario :
  exists self' s w',
    sniff (Scenario.self_of "f4.tiff") Scenario.world_B = Ok ((self', s), w') /\
    obs s <> [] /\ (exists l, dfs s = Some l /\ l <> []) /\
    ct_pattern s = "/SNSlocal2/work.CT-group-100/CT_frame_averaged/at_%s.tiff".
Proof.
  destruct (sniff (Scenario.self_of "f4.tiff") Scenario.world_B)
    as [[[self' s] w']|] eqn:E; [|vm_compute in E; discriminate].
  exists self', s, w'. split; [reflexivity|].
  destruct (sniff_returns _ _ _ _ _ E) as (Hobs & Hdfs & Hpattern & _).
  split; [exact Hobs|]. split; [exact Hdfs | exact Hpattern].
Defined.

(** ** [autoreduce] on a file that is no radiograph of a scan *)

(** X14: [autoreduce] does not pass over a file it cannot use.  Triggered
    by a file that is no TIFF it raises the reader's error unchanged, and
    triggered by a TIFF without a [RunNo] tag, a calibration frame for
    one, it raises [KeyError]. *)
Theorem autoreduce_unusable_trigger `{Builtins} (w : World)
  (ct_file_path local_disk_partition : string) :
  (forall e, tiff_page w ct_file_path = Raise e ->
             autoreduce ct_file_path local_disk_partition w = Raise e) /\
  (forall p0, tiff_page w ct_file_path = Ok p0 ->
              dict_get (readTIFMetadata_loop [] (tags p0)) "RunNo" = Raise (KeyError "RunNo") ->
              autoreduce ct_file_path local_disk_partition w = Raise (KeyError "RunNo")).
Proof.
  split.
  - intros e Hpage.
    unfold autoreduce, autoreduce_fields, readTIFMetadata, bind, tifffile.TiffFile, lift.
    now rewrite Hpage.
  - intros p0 Hpage Hkey.
    unfold autoreduce, autoreduce_fields, readTIFMetadata, bind, tifffile.TiffFile, lift, ret.
    rewrite Hpage. unfold int_field. now rewrite Hkey.
Qed.

Lemma autoreduce_unusable_trigger_scenario :
  autoreduce (Scenario.ct_path "notes.txt") "/SNSlocal2" Scenario.world_B =
  Raise (ValueError "not a valid TIFF file") /\
  autoreduce (Scenario.ob_path "ob1.tiff") "/SNSlocal2" Scenario.world_B =
  Raise (KeyError "RunNo").
Proof.
  split.
  - apply (autoreduce_unusable_trigger Scenario.world_B (Scenario.ct_path "notes.txt")
             "/SNSlocal2"). vm_compute. reflexivity.
  - apply (proj2 (autoreduce_unusable_trigger Scenario.world_B (Scenario.ob_path "ob1.tiff")
                    "/SNSlocal2") {| tags := [TagOther]; shape := [0; 0]%nat; asarray := [] |});
      vm_compute; reflexivity.
Defined.

(** ** [decorators.mpi_parallelize]: the number of processes *)

(** X12: the command always asks for at least one process.  A request of
    one or more is taken as it is; with no request, or a request of zero,
    it is one less than the number of CPUs, and one on a single CPU. *)
Theorem mpi_nodes_bounds (nodes : option Z) (cpu_count : Z) :
  1 <= decorators.mpi_nodes nodes cpu_count /\
  (forall n, nodes = Some n -> 1 <= n -> decorators.mpi_nodes nodes cpu_count = n) /\
  (nodes = None \/ nodes = Some 0 ->
   decorators.mpi_nodes nodes cpu_count = Z.max (cpu_count - 1) 1) /\
  (forall n, nodes = Some n -> n < 0 -> decorators.mpi_nodes nodes cpu_count = 1).
Proof.
  unfold decorators.mpi_nodes. repeat split.
  - apply Z.le_max_r.
  - intros n -> Hn. replace (n =? 0) with false by (symmetry; apply Z.eqb_neq; lia). lia.
  - intros [-> | ->]; reflexivity.
  - intros n -> Hn. replace (n =? 0) with false by (symmetry; apply Z.eqb_neq; lia). lia.
Qed.

Lemma mpi_nodes_bounds_scenario :
  decorators.mpi_nodes (Some 20) 8 = 20 /\ decorators.mpi_nodes None 1 = 1 /\
  decorators.mpi_nodes (Some (-3)) 8 = 1.
Proof.
  destruct (mpi_nodes_bounds (Some 20) 8) as (_ & Hasked & _).
  destruct (mpi_nodes_bounds None 1) as (_ & _ & Hdefault & _).
  destruct (mpi_nodes_bounds (Some (-3)) 8) as (_ & _ & _ & Hneg).
  split; [|split].
  - apply (Hasked 20); [reflexivity | discriminate].
  - rewrite Hdefault by now left. reflexivity.
  - apply (Hneg (-3)); reflexivity.
Defined.

(** ** The configuration listing of the wizard *)

Lemma length_append (a b : string) :
  String.length (a ++ b) = (String.length a + String.length b)%nat.
Proof. induction a as [|c a IH]; simpl; [reflexivity | now rewrite IH]. Qed.

Lemma length_substring (n : nat) (s : string) :
  (n <= String.length s)%nat -> String.length (String.substring 0 n s) = n.
Proof.
  revert s. induction n as [|n IH]; intros [|c s] Hn; simpl in *;
    try reflexivity; try lia.
  rewrite IH; lia.
Qed.

Lemma prefix_substring (n : nat) (s : string) :
  String.prefix (String.substring 0 n s) s = true.
Proof.
  revert s. induction n as [|n IH]; intros [|c s]; simpl; try reflexivity.
  destruct (ascii_dec c c); [apply IH | congruence].
Qed.

Lemma length_spaces (n : nat) : String.length (tomoreconui.spaces n) = n.
Proof. induction n as [|n IH]; simpl; [reflexivity | now rewrite IH]. Qed.

(** X13: every line of the listing belongs to an item whose key does not
    begin with an underscore; the key fills at least twenty columns, and
    the value shown after it is the value itself when that has at most 60
    characters, and its first 50 characters followed by three dots, 53
    characters in all, when it has more. *)
Theorem config_lines_shown (items : list (string * string)) :
  Forall (fun line =>
            exists k v,
              In (k, v) items /\ Str.startswith k "_" = false /\
              line = k ++ tomoreconui.spaces (20 - String.length k) ++ tomoreconui.shown v /\
              (20 <= String.length (k ++ tomoreconui.spaces (20 - String.length k)))%nat /\
              ((String.length v <= 60)%nat -> tomoreconui.shown v = v) /\
              ((60 < String.length v)%nat ->
               tomoreconui.shown v = String.substring 0 50 v ++ "..." /\
               String.length (tomoreconui.shown v) = 53%nat /\
               String.prefix (String.substring 0 50 v) v = true))
         (tomoreconui.config_lines items).
Proof.
  induction items as [|[k v] items IH]; cbn [tomoreconui.config_lines]; [constructor|].
  assert (Hrest : Forall (fun line =>
            exists k0 v0,
              In (k0, v0) ((k, v) :: items) /\ Str.startswith k0 "_" = false /\
              line = k0 ++ tomoreconui.spaces (20 - String.length k0) ++ tomoreconui.shown v0 /\
              (20 <= String.length (k0 ++ tomoreconui.spaces (20 - String.length k0)))%nat /\
              ((String.length v0 <= 60)%nat -> tomoreconui.shown v0 = v0) /\
              ((60 < String.length v0)%nat ->
               tomoreconui.shown v0 = String.substring 0 50 v0 ++ "..." /\
               String.length (tomoreconui.shown v0) = 53%nat /\
               String.prefix (String.substring 0 50 v0) v0 = true))
         (tomoreconui.config_lines items)).
  { eapply Forall_impl; [|exact IH].
    intros line (k0 & v0 & Hin & H'). exists k0, v0. split; [now right | exact H']. }
  destruct (Str.startswith k "_") eqn:Ek; [exact Hrest|].
  constructor; [|exact Hrest].
  unfold tomoreconui.format_line.
  exists k, v. split; [now left|]. split; [exact Ek|]. split; [reflexivity|].
  split; [rewrite length_append, length_spaces; lia|].
  unfold tomoreconui.shown. split.
  - intros Hshort. replace (Nat.ltb 60 (String.length v)) with false; [reflexivity|].
    symmetry. apply Nat.ltb_ge. exact Hshort.
  - intros Hlong. replace (Nat.ltb 60 (String.length v)) with true
      by (symmetry; now apply Nat.ltb_lt).
    split; [reflexivity|]. split; [|apply prefix_substring].
    rewrite length_append, length_substring by lia. reflexivity.
Qed.
